(** * ISS pass predictor: the search engine and its accuracy model

    A shallow embedding of [ISSPassPredictor] (main.py): the accuracy
    model [estimate_accuracy], the one-second refinement
    [refine_pass_data] and the one-minute coarse scan of
    [calculate_passes].

    Conventions of the embedding.
    - Python floats (distances, angles, days, kilometres of error) are
      idealised as exact rationals [Q]; comparisons are the exact ones.
    - A [datetime] is an integer count of microseconds ([Z]) on the UTC
      axis, a [timedelta] an integer count of microseconds; Skyfield's
      [Time] values are identified with the [datetime] they convert to.
    - The propagator, [(satellite.at(t) - location.at(t)).altaz()], is a
      function from instants to [AltAz] triples; the vectorised call is
      the same function mapped over the grid.
    - Exceptions and the fuel of the [while] loop are explicit in
      [Outcome]. *)

From Stdlib Require Import String ZArith QArith Qround Lqa Lia Bool List Sorted.
Import ListNotations.

Set Implicit Arguments.

(* ================================================================== *)
(** ** The accuracy model *)
(* ================================================================== *)

Module Accuracy.

Local Open Scope Q_scope.

(** The six reliability labels, in the order of the [if]/[elif] chain. *)
Inductive Reliability : Set :=
  | EXCELLENT | VERY_GOOD | GOOD | MODERATE | POOR | VERY_POOR.

(** The string each label stands for in the source. *)
Definition reliability_string (r : Reliability) : string :=
  match r with
  | EXCELLENT => "EXCELLENT"
  | VERY_GOOD => "VERY GOOD"
  | GOOD      => "GOOD"
  | MODERATE  => "MODERATE"
  | POOR      => "POOR"
  | VERY_POOR => "VERY POOR"
  end.

(** [estimate_accuracy] (main.py, lines 112-137): the [if]/[elif] chain,
    branch by branch, returning the pair [(error, reliability)]. *)
Definition estimate_accuracy (days_from_epoch : Q) : Q * Reliability :=
  if Qle_bool days_from_epoch 3 then
    (1 + (days_from_epoch / 3) * 4, EXCELLENT)
  else if Qle_bool days_from_epoch 7 then
    (5 + ((days_from_epoch - 3) / 4) * 15, VERY_GOOD)
  else if Qle_bool days_from_epoch 30 then
    (20 + ((days_from_epoch - 7) / 23) * 80, GOOD)
  else if Qle_bool days_from_epoch 90 then
    (100 + ((days_from_epoch - 30) / 60) * 400, MODERATE)
  else if Qle_bool days_from_epoch 180 then
    (500 + ((days_from_epoch - 90) / 90) * 500, POOR)
  else
    (1000 * (1 + (days_from_epoch - 180) / 180), VERY_POOR).

Definition error_of (d : Q) : Q := fst (estimate_accuracy d).
Definition tier_of (d : Q) : Reliability := snd (estimate_accuracy d).

(** The formula of one branch, taken alone: what the branch labelled [r]
    computes when it is handed [d], whether or not its guard holds.  Used
    to compare two neighbouring branches at their common breakpoint. *)
Definition branch_formula (r : Reliability) (d : Q) : Q :=
  match r with
  | EXCELLENT => 1 + (d / 3) * 4
  | VERY_GOOD => 5 + ((d - 3) / 4) * 15
  | GOOD      => 20 + ((d - 7) / 23) * 80
  | MODERATE  => 100 + ((d - 30) / 60) * 400
  | POOR      => 500 + ((d - 90) / 90) * 500
  | VERY_POOR => 1000 * (1 + (d - 180) / 180)
  end.

(** The branch the guards select. *)
Definition branch_of (d : Q) : Reliability :=
  if Qle_bool d 3 then EXCELLENT
  else if Qle_bool d 7 then VERY_GOOD
  else if Qle_bool d 30 then GOOD
  else if Qle_bool d 90 then MODERATE
  else if Qle_bool d 180 then POOR
  else VERY_POOR.

End Accuracy.

(* ================================================================== *)
(** ** Instants, durations and the outcome of a call *)
(* ================================================================== *)

Module Clock.

Local Open Scope Z_scope.

(** A [datetime] counts microseconds on the UTC axis; a [timedelta]
    counts microseconds too (Python normalises it to days, seconds and
    microseconds, which is the same integer). *)
Definition datetime := Z.
Definition timedelta := Z.

Definition timedelta_seconds (n : Z) : timedelta := n * 1000000.
Definition timedelta_minutes (n : Z) : timedelta := n * 60000000.

(** [round(x)] of Python 3: to the nearest integer, ties to even. *)
Definition round_half_even (x : Q) : Z :=
  let f := Qfloor x in
  match (x - inject_Z f ?= 1 # 2)%Q with
  | Lt => f
  | Gt => f + 1
  | Eq => if Z.even f then f else f + 1
  end.

(** [timedelta(days=x)] for a fractional [x]: the microseconds are
    rounded with [round]. *)
Definition timedelta_days (x : Q) : timedelta :=
  round_half_even (x * 86400 * 1000000)%Q.

(** [td.total_seconds()]. *)
Definition total_seconds (td : timedelta) : Q := (inject_Z td / 1000000)%Q.

(** [int(x)]: truncation towards zero. *)
Definition int (x : Q) : Z := Z.quot (Qnum x) (Zpos (Qden x)).

End Clock.

(** What a call does: it returns a value, raises, or (for the model of
    the [while] loop only) runs out of the fuel it was given. *)
Inductive Outcome (A : Type) : Type :=
  | Returned (a : A)
  | Raised
  | OutOfFuel.

Arguments Returned {A} a.
Arguments Raised {A}.
Arguments OutOfFuel {A}.

Definition bind {A B : Type} (m : Outcome A) (k : A -> Outcome B) : Outcome B :=
  match m with
  | Returned a => k a
  | Raised => Raised
  | OutOfFuel => OutOfFuel
  end.

Notation "x <- m ;; k" := (bind m (fun x => k))
  (at level 61, m at next level, right associativity).

(* ================================================================== *)
(** ** The reductions over a sampled window *)
(* ================================================================== *)

Module Numpy.

Local Open Scope Q_scope.

Definition Qlt_bool (a b : Q) : bool := negb (Qle_bool b a).

(** [a.argmin()]: the index of the first occurrence of the minimum;
    raises on an empty array ([None] here). *)
Fixpoint argmin_from (best_i : nat) (best : Q) (i : nat) (l : list Q) : nat :=
  match l with
  | [] => best_i
  | x :: r =>
      if Qlt_bool x best then argmin_from i x (S i) r
      else argmin_from best_i best (S i) r
  end.

Definition argmin (l : list Q) : option nat :=
  match l with
  | [] => None
  | x :: r => Some (argmin_from 0%nat x 1%nat r)
  end.

(** [a.max()]; raises on an empty array ([None] here). *)
Definition amax (l : list Q) : option Q :=
  match l with
  | [] => None
  | x :: r => Some (fold_left (fun m y => if Qle_bool m y then y else m) r x)
  end.

(** The built-in [sum] over an iterable of booleans, [True] counting 1. *)
Definition sum_bools (l : list bool) : Z :=
  fold_left (fun acc (b : bool) => (acc + (if b then 1 else 0))%Z) l 0%Z.

End Numpy.

(* ================================================================== *)
(** ** The predictor: fine refinement and coarse scan *)
(* ================================================================== *)

Module Predictor.

Import Clock Numpy.
Local Open Scope Z_scope.

(** What [difference.altaz()] returns at one instant. *)
Record AltAz : Type := {
  alt_degrees : Q;
  az_degrees : Q;
  distance_km : Q
}.

(** The fields of [self] the search reads, for a predictor whose TLE has
    been fetched.  [altaz t] stands for
    [(satellite.at(t) - location.at(t)).altaz()], with the satellite of
    [tle_line1]/[tle_line2] and the location of [latitude]/[longitude]. *)
Record ISSPassPredictor : Type := {
  max_distance_km : Q;
  tle_epoch : datetime;
  altaz : datetime -> AltAz
}.

(** The dictionary [refine_pass_data] returns, key by key ([end] is
    [end_] here). *)
Record Pass : Type := {
  start : datetime;
  end_ : datetime;
  closest_time : datetime;
  min_distance : Q;
  max_altitude : Q;
  duration : Q;
  error_km : Q;
  reliability : Accuracy.Reliability
}.

(** The loop of lines 209-213: [n] instants one second apart from
    [curr_t]. *)
Fixpoint times_from (n : nat) (curr_t : datetime) : list datetime :=
  match n with
  | O => []
  | S n' => curr_t :: times_from n' (curr_t + timedelta_seconds 1)
  end.

(** [refine_pass_data] (main.py, lines 196-255).  [Returned None] is the
    [return None] of line 230; [Raised] is the exception of [argmin] (or
    of anything before it) on an empty grid. *)
Definition refine_pass_data (self : ISSPassPredictor)
    (start_time end_time : datetime) : Outcome (option Pass) :=
  let t0 := start_time - timedelta_minutes 1 in
  let t1 := end_time + timedelta_minutes 1 in
  let duration_seconds := int (total_seconds (t1 - t0)) in
  let times_list := times_from (Z.to_nat duration_seconds) t0 in
  let samples := map (altaz self) times_list in
  let alts := map alt_degrees samples in
  let dist_km_list := map distance_km samples in
  match argmin dist_km_list with
  | None => Raised
  | Some min_dist_index =>
      let min_distance := nth min_dist_index dist_km_list 0%Q in
      if Qlt_bool (max_distance_km self) min_distance then Returned None
      else
        match amax alts with
        | None => Raised
        | Some max_alt =>
            let closest_t := nth min_dist_index times_list 0 in
            let duration_sec :=
              sum_bools (map (fun d => Qle_bool d (max_distance_km self)) dist_km_list) in
            let duration_mins := (inject_Z duration_sec / 60)%Q in
            let days_from_epoch :=
              (total_seconds (closest_t - tle_epoch self)%Z / 86400)%Q in
            let (error_km, reliability) := Accuracy.estimate_accuracy days_from_epoch in
            Returned (Some {|
              start := start_time;
              end_ := end_time;
              closest_time := closest_t;
              min_distance := min_distance;
              max_altitude := max_alt;
              duration := duration_mins;
              error_km := error_km;
              reliability := reliability
            |})
        end
  end.

(** The local variables of the [while] loop of [calculate_passes]. *)
Record Scan : Type := {
  current : datetime;
  window_start : option datetime;
  in_window : bool;
  passes : list Pass
}.

(** The one-minute step of line 156. *)
Definition step : timedelta := timedelta_minutes 1.

(** One turn of the loop body (lines 164-192).  [window_start] is
    [None] until the first window opens; handing [None] to
    [refine_pass_data] would raise. *)
Definition scan_body (self : ISSPassPredictor) (st : Scan) : Outcome Scan :=
  let dist_km := distance_km (altaz self (current st)) in
  st' <-
    (if Qle_bool dist_km (max_distance_km self) then
       if negb (in_window st) then
         Returned {| current := current st;
                     window_start := Some (current st);
                     in_window := true;
                     passes := passes st |}
       else Returned st
     else
       if in_window st then
         let window_end := current st in
         match window_start st with
         | None => Raised
         | Some ws =>
             precise_pass <- refine_pass_data self ws window_end ;;
             Returned {| current := current st;
                         window_start := window_start st;
                         in_window := false;
                         passes := match precise_pass with
                                   | Some p => passes st ++ [p]
                                   | None => passes st
                                   end |}
         end
       else Returned st) ;;
  Returned {| current := current st' + step;
              window_start := window_start st';
              in_window := in_window st';
              passes := passes st' |}.

(** The [while current.utc_datetime() < end_dt] loop, with fuel. *)
Fixpoint scan_loop (fuel : nat) (self : ISSPassPredictor)
    (end_dt : datetime) (st : Scan) : Outcome Scan :=
  match fuel with
  | O => OutOfFuel
  | S fuel' =>
      if current st <? end_dt then
        st' <- scan_body self st ;; scan_loop fuel' self end_dt st'
      else Returned st
  end.

(** The number of turns the loop takes from [start_time] to [end_dt]. *)
Definition turns (start_time end_dt : datetime) : nat :=
  Z.to_nat ((end_dt - start_time + step - 1) / step).

(** The scan from an explicit first instant (lines 152-194): the final
    loop state. *)
Definition scan (self : ISSPassPredictor) (start_time end_dt : datetime)
    : Outcome Scan :=
  scan_loop (S (turns start_time end_dt)) self end_dt
    {| current := start_time; window_start := None;
       in_window := false; passes := [] |}.

(** The ambient state [calculate_passes] reads: the wall clock that
    [ts.now()] samples. *)
Record World : Type := { wall_clock : datetime }.

Definition ts_now (w : World) : datetime := wall_clock w.

(** [calculate_passes] (main.py, lines 139-194). *)
Definition calculate_passes (self : ISSPassPredictor) (years : Q) (w : World)
    : Outcome (list Pass) :=
  let start_time := ts_now w in
  let end_dt := start_time + timedelta_days (365 * years)%Q in
  st <- scan self start_time end_dt ;;
  Returned (passes st).

(** *** Vocabulary for the statements

    The quantities the properties below talk about, written the way the
    specification words them rather than the way the code computes
    them. *)

(** Slant range and elevation at an instant. *)
Definition range_at (self : ISSPassPredictor) (t : datetime) : Q :=
  distance_km (altaz self t).

Definition elevation_at (self : ISSPassPredictor) (t : datetime) : Q :=
  alt_degrees (altaz self t).

(** Days between the element epoch and an instant. *)
Definition days_from (self : ISSPassPredictor) (t : datetime) : Q :=
  (total_seconds (t - tle_epoch self)%Z / 86400)%Q.

(** The in-range predicate: range at most the threshold (inclusive). *)
Definition in_range (self : ISSPassPredictor) (t : datetime) : bool :=
  Qle_bool (range_at self t) (max_distance_km self).

(** The padded one-second grid of the window [[s, e)]: it starts one
    minute before [s] and has one instant per whole second of the
    interval up to one minute after [e]. *)
Definition fine_len (s e : datetime) : nat :=
  Z.to_nat (Z.quot (e - s + 120000000) 1000000).

Definition fine_instant (s : datetime) (i : nat) : datetime :=
  s - 60000000 + Z.of_nat i * 1000000.

Definition fine_grid (s e : datetime) : list datetime :=
  map (fine_instant s) (seq 0 (fine_len s e)).

(** The number of grid instants in range. *)
Definition in_range_count (self : ISSPassPredictor) (s e : datetime) : Z :=
  Z.of_nat (length (filter (in_range self) (fine_grid s e))).

(** [k] is the index of the first minimum of [f] over [grid]. *)
Definition first_argmin (f : datetime -> Q) (grid : list datetime) (k : nat) : Prop :=
  (k < length grid)%nat /\
  (forall j, (j < length grid)%nat -> (f (nth k grid 0%Z) <= f (nth j grid 0%Z))%Q) /\
  (forall j, (j < k)%nat -> (f (nth k grid 0%Z) < f (nth j grid 0%Z))%Q).

(** [m] is the maximum of [f] over [grid]. *)
Definition maximum_over (f : datetime -> Q) (grid : list datetime) (m : Q) : Prop :=
  (exists t, In t grid /\ m = f t) /\
  (forall t, In t grid -> (f t <= m)%Q).

(** The outcome of a refinement whose first minimum is at index [k] and
    whose maximum elevation is [m]. *)
Definition refined (self : ISSPassPredictor) (s e : datetime) (k : nat) (m : Q)
    : Outcome (option Pass) :=
  let closest := nth k (fine_grid s e) 0 in
  if Qlt_bool (max_distance_km self) (range_at self closest) then Returned None
  else Returned (Some {|
    start := s;
    end_ := e;
    closest_time := closest;
    min_distance := range_at self closest;
    max_altitude := m;
    duration := (inject_Z (in_range_count self s e) / 60)%Q;
    error_km := fst (Accuracy.estimate_accuracy (days_from self closest));
    reliability := snd (Accuracy.estimate_accuracy (days_from self closest))
  |}).

(** The [k]-th coarse tick of a scan that starts at [start_time]. *)
Definition tick (start_time : datetime) (k : nat) : datetime :=
  start_time + Z.of_nat k * step.

(** The loop state on entry. *)
Definition scan_init (start_time : datetime) : Scan :=
  {| current := start_time; window_start := None;
     in_window := false; passes := [] |}.

(** The outcome of the first [k] turns of the loop body. *)
Fixpoint scan_turns (self : ISSPassPredictor) (k : nat) (st : Scan) : Outcome Scan :=
  match k with
  | O => Returned st
  | S k' => st' <- scan_turns self k' st ;; scan_body self st'
  end.

(** Two passes in the order of the output: windows one coarse step
    apart at least, closest approaches in order, and in strict order as
    soon as the windows are two coarse steps apart. *)
Definition pass_before (p q : Pass) : Prop :=
  end_ p + step <= start q /\
  closest_time p <= closest_time q /\
  (end_ p + 2 * step <= start q -> closest_time p < closest_time q).

(** The loop state after [k] turns from the state on entry. *)
Definition scan_state (self : ISSPassPredictor) (start_time : datetime) (k : nat) : Scan :=
  match scan_turns self k (scan_init start_time) with
  | Returned st => st
  | _ => scan_init start_time
  end.

(** What a closed window adds to the list of passes. *)
Definition emitted (r : option Pass) : list Pass :=
  match r with
  | Some p => [p]
  | None => []
  end.

(** [p] is the refinement of a window between two ticks, closed before
    the [k]-th tick. *)
Definition closed_window (self : ISSPassPredictor) (start_time : datetime)
    (k : nat) (p : Pass) : Prop :=
  exists a b, (a < b)%nat /\ (b < k)%nat /\
    refine_pass_data self (tick start_time a) (tick start_time b) = Returned (Some p).

(** What holds of the loop state at the head of the [k]-th turn. *)
Definition scan_inv (self : ISSPassPredictor) (start_time : datetime)
    (k : nat) (st : Scan) : Prop :=
  current st = tick start_time k /\
  (in_window st = true ->
     exists j, (j < k)%nat /\ window_start st = Some (tick start_time j) /\
       (forall i, (j <= i < k)%nat -> in_range self (tick start_time i) = true) /\
       Forall (fun p => end_ p + step <= tick start_time j) (passes st)) /\
  Forall (closed_window self start_time k) (passes st) /\
  StronglySorted pass_before (passes st).

End Predictor.

(* ================================================================== *)
(** ** Synthetic propagators, used to run the search on concrete inputs *)
(* ================================================================== *)

Module Scenarios.

Import Clock Predictor.
Local Open Scope Z_scope.

Definition sec (n : Z) : datetime := timedelta_seconds n.

(** A predictor with the source's threshold of 1000 km, an epoch at the
    origin of the time axis, and a given slant range; elevation and
    azimuth are taken from the range so that they vary too. *)
Definition predictor_of (range : datetime -> Q) : ISSPassPredictor :=
  {| max_distance_km := 1000;
     tle_epoch := 0;
     altaz := fun t => {| alt_degrees := (90 - range t / 100)%Q;
                          az_degrees := 0;
                          distance_km := range t |} |}.

(** The range [500 + 5 |t - 300 s|] km: one pass, in range exactly when
    [|t - 300 s| <= 100 s]. *)
Definition vee_range (t : datetime) : Q :=
  (500 + 5 * (inject_Z (Z.abs (t - sec 300)) / 1000000))%Q.

(** In range during [60 s, 120 s) only. *)
Definition box_range (t : datetime) : Q :=
  if (sec 60 <=? t) && (t <? sec 120) then 500%Q else 2000%Q.

(** The same until 600 s, under the threshold from then on. *)
Definition box_then_near_range (t : datetime) : Q :=
  if t <? sec 600 then box_range t else 700%Q.

(** In range at the coarse ticks 60 s and 180 s, out of range at the
    tick 120 s between them, and closest (1 km) at 150 s. *)
Definition twin_range (t : datetime) : Q :=
  if t =? sec 150 then 1%Q
  else if (t =? sec 60) || (t =? sec 180) then 900%Q
  else 2000%Q.

(** Never out of range. *)
Definition near_range (t : datetime) : Q := 700%Q.

(** Never in range. *)
Definition far_range (t : datetime) : Q := 2000%Q.

(** In range from 120 s on: the window that opens is still open when
    the horizon ends. *)
Definition late_range (t : datetime) : Q :=
  if t <? sec 120 then 2000%Q else 800%Q.

(** A short horizon: [365 / 65536] days, a little over 481 s, that is
    nine coarse ticks. *)
Definition short_years : Q := 1 # 65536.

Definition at_origin : World := {| wall_clock := 0 |}.
Definition half_minute_later : World := {| wall_clock := sec 30 |}.

End Scenarios.

(* ================================================================== *)
(** ** Runs of in-range ticks and the order of the labels *)
(* ================================================================== *)

Module Runs.

Import Clock Predictor.
Local Open Scope Z_scope.

(** The ticks [j], ..., [k - 1] are in range and the run cannot be
    extended to the left: [j] is the first tick of the scan or the tick
    before it is out of range. *)
Definition open_run (self : ISSPassPredictor) (start_time : datetime)
    (j k : nat) : Prop :=
  (j < k)%nat /\
  (forall i, (j <= i < k)%nat -> in_range self (tick start_time i) = true) /\
  (j = 0%nat \/ exists j', j = S j' /\ in_range self (tick start_time j') = false).

(** A run that the out-of-range tick [b] closes. *)
Definition closed_run (self : ISSPassPredictor) (start_time : datetime)
    (j b : nat) : Prop :=
  open_run self start_time j b /\ in_range self (tick start_time b) = false.

(** What the loop state knows about the runs at the head of the [k]-th
    turn. *)
Definition run_inv (self : ISSPassPredictor) (start_time : datetime)
    (k : nat) (st : Scan) : Prop :=
  (in_window st = true ->
     exists j, window_start st = Some (tick start_time j) /\
               open_run self start_time j k) /\
  (in_window st = false ->
     k = 0%nat \/ exists k', k = S k' /\ in_range self (tick start_time k') = false) /\
  (forall p, In p (passes st) <->
     exists j b, (b < k)%nat /\ closed_run self start_time j b /\
       refine_pass_data self (tick start_time j) (tick start_time b)
       = Returned (Some p)) /\
  (2 * length (passes st) + (if in_window st then 1 else 0) <= k)%nat.

(** The place of a label in the order of the [if]/[elif] chain. *)
Definition tier_rank (r : Accuracy.Reliability) : nat :=
  match r with
  | Accuracy.EXCELLENT => 0
  | Accuracy.VERY_GOOD => 1
  | Accuracy.GOOD => 2
  | Accuracy.MODERATE => 3
  | Accuracy.POOR => 4
  | Accuracy.VERY_POOR => 5
  end.

End Runs.

(* ================================================================== *)
(** ** Fetching the element set *)
(* ================================================================== *)

Module Tle.

Import Clock.

(** A Python [str] as the list of its code points; 10 is the newline. *)
Definition str : Type := list N.

Definition newline : N := 10%N.

Section Fetch.

(** [c.isspace()], the characters [str.strip()] removes. *)
Variable isspace : N -> bool.

(** [EarthSatellite(line1, line2, 'ISS', ts).epoch.utc_datetime()];
    it raises on lines that are not an element set. *)
Variable epoch_of : str -> str -> Outcome datetime.

(** [s.lstrip()], [s.rstrip()] and [s.strip()]. *)
Fixpoint lstrip (s : str) : str :=
  match s with
  | [] => []
  | c :: r => if isspace c then lstrip r else s
  end.

Definition rstrip (s : str) : str := rev (lstrip (rev s)).

Definition strip (s : str) : str := rstrip (lstrip s).

(** [s.split('\n')]: the pieces between the newlines, one more than
    there are newlines. *)
Fixpoint split (s : str) : list str :=
  match s with
  | [] => [[]]
  | c :: r =>
      if N.eqb c newline then [] :: split r
      else match split r with
           | piece :: pieces => (c :: piece) :: pieces
           | [] => [[c]]
           end
  end.

(** The attributes of [self] that [fetch_tle] assigns; [None] until
    then. *)
Record Elements : Type := {
  tle_line1 : option str;
  tle_line2 : option str;
  tle_epoch : option datetime
}.

(** What [fetch_tle] does: the boolean it returns, whether it showed
    the error box, and the attributes afterwards. *)
Record Fetched : Type := {
  returned : bool;
  error_box : bool;
  elements : Elements
}.

(** [fetch_tle] (main.py, lines 88-110).  [response] is the text of the
    reply, or [Raised] when [requests.get] or [raise_for_status]
    raises.  The two lines are assigned before the satellite is built,
    so they stay assigned when building it raises. *)
Definition fetch_tle (response : Outcome str) (self : Elements) : Fetched :=
  match response with
  | Returned text =>
      let lines := split (strip text) in
      if (3 <=? length lines)%nat then
        let line1 := strip (nth 1 lines []) in
        let line2 := strip (nth 2 lines []) in
        match epoch_of line1 line2 with
        | Returned epoch =>
            {| returned := true; error_box := false;
               elements := {| tle_line1 := Some line1;
                              tle_line2 := Some line2;
                              tle_epoch := Some epoch |} |}
        | _ =>
            {| returned := false; error_box := true;
               elements := {| tle_line1 := Some line1;
                              tle_line2 := Some line2;
                              tle_epoch := tle_epoch self |} |}
        end
      else {| returned := false; error_box := false; elements := self |}
  | _ => {| returned := false; error_box := true; elements := self |}
  end.

(** A line as [fetch_tle] stores it: no newline inside and no space
    character at either end. *)
Definition clean (l : str) : Prop :=
  ~ In newline l /\
  (forall c, hd_error l = Some c -> isspace c = false) /\
  (forall c, hd_error (rev l) = Some c -> isspace c = false).

(** Space characters only, none of them a newline. *)
Definition blank (l : str) : Prop :=
  Forall (fun c => isspace c = true) l /\ ~ In newline l.

End Fetch.

End Tle.

(* ================================================================== *)
(** ** Starting a prediction *)
(* ================================================================== *)

Module Gui.

Local Open Scope Q_scope.

(** What [float(text)] can return: a finite value, an infinity or a
    NaN. *)
Inductive PyFloat : Type :=
  | Finite (q : Q)
  | PosInf
  | NegInf
  | NaN.

(** [x <= c] and [x > c] for a finite [c]; both are false on a NaN. *)
Definition float_le (x : PyFloat) (c : Q) : bool :=
  match x with
  | Finite q => Qle_bool q c
  | NegInf => true
  | PosInf | NaN => false
  end.

Definition float_gt (x : PyFloat) (c : Q) : bool :=
  match x with
  | Finite q => negb (Qle_bool q c)
  | PosInf => true
  | NegInf | NaN => false
  end.

(** What [start_prediction] does: it shows an error box and returns,
    or it starts the thread that runs [run_prediction(years)]. *)
Inductive Launch : Type :=
  | ErrorBox (message : string)
  | Thread (years : PyFloat).

(** [start_prediction] (main.py, lines 328-344).  [entry] is what
    [float(self.years_var.get())] returns, [None] when it raises
    [ValueError]. *)
Definition start_prediction (entry : option PyFloat) : Launch :=
  match entry with
  | None => ErrorBox "Please enter a valid number of years."
  | Some years =>
      if float_le years 0 || float_gt years 10 then
        ErrorBox "Please enter a value between 0 and 10 years."
      else Thread years
  end.

End Gui.

(* ================================================================== *)
(** ** Replies, used to run [fetch_tle] on concrete inputs *)
(* ================================================================== *)

Module Replies.

Import Clock Tle.

(** Space, tab, newline, vertical tab, form feed and carriage return. *)
Definition ascii_space (c : N) : bool :=
  (N.eqb c 32 || ((9 <=? c) && (c <=? 13)))%N.

(** An epoch reader that accepts any two lines. *)
Definition any_epoch (line1 line2 : str) : Outcome datetime := Returned 0%Z.

Definition nothing_yet : Elements :=
  {| tle_line1 := None; tle_line2 := None; tle_epoch := None |}.

(** The title [ISS]. *)
Definition sample_title : str := [73; 83; 83]%N.

(** The beginnings [1 25544U] and [2 25544] of two element lines. *)
Definition sample_line1 : str := [49; 32; 50; 53; 53; 52; 52; 85]%N.
Definition sample_line2 : str := [50; 32; 50; 53; 53; 52; 52]%N.

(** The three lines, each ended by a carriage return and a newline. *)
Definition sample_reply : str :=
  sample_title ++ newline :: ([] ++ sample_line1 ++ [13%N])
               ++ newline :: ([] ++ sample_line2 ++ [13; 10]%N).

(** The two element lines without a title. *)
Definition bare_reply : str :=
  sample_line1 ++ [13; 10]%N ++ sample_line2 ++ [13; 10]%N.

End Replies.

(* ================================================================== *)
(** ** The boolean comparisons of [Q] *)
(* ================================================================== *)

Module QOrder.

Local Open Scope Q_scope.

Lemma Qle_bool_false_lt (a b : Q) : Qle_bool a b = false -> b < a.
Proof.
  intros H. apply Qnot_le_lt. intros Hle.
  apply Qle_bool_iff in Hle. congruence.
Qed.

Lemma Qle_bool_true_le (a b : Q) : Qle_bool a b = true -> a <= b.
Proof. apply Qle_bool_iff. Qed.

Lemma Qlt_Qle_bool_false (a b : Q) : b < a -> Qle_bool a b = false.
Proof.
  intros H. destruct (Qle_bool a b) eqn:E; [|reflexivity].
  apply Qle_bool_iff in E. lra.
Qed.

Lemma Qle_Qle_bool_true (a b : Q) : a <= b -> Qle_bool a b = true.
Proof. apply Qle_bool_iff. Qed.

End QOrder.

(* ================================================================== *)
(** ** Properties of the reductions *)
(* ================================================================== *)

Module NumpyProps.

Import Numpy QOrder.
Local Open Scope Q_scope.

Lemma Qlt_bool_true (a b : Q) : Qlt_bool a b = true -> a < b.
Proof.
  unfold Qlt_bool. intros H. apply negb_true_iff in H.
  now apply Qle_bool_false_lt.
Qed.

Lemma Qlt_bool_false (a b : Q) : Qlt_bool a b = false -> b <= a.
Proof.
  unfold Qlt_bool. intros H. apply negb_false_iff in H.
  now apply Qle_bool_iff.
Qed.

(** [argmin_from] either keeps the running best, which is then a lower
    bound of the rest, or moves to the first strict improvement that is
    a minimum of the rest. *)
Lemma argmin_from_spec (l : list Q) :
  forall (best_i : nat) (best : Q) (i : nat),
    let k := argmin_from best_i best i l in
    (k = best_i /\ forall j, (j < length l)%nat -> best <= nth j l 0)
    \/
    (exists m, k = (i + m)%nat /\ (m < length l)%nat /\
               nth m l 0 < best /\
               (forall j, (j < length l)%nat -> nth m l 0 <= nth j l 0) /\
               (forall j, (j < m)%nat -> nth m l 0 < nth j l 0)).
Proof.
  induction l as [| x r IH]; intros best_i best i; cbn [argmin_from].
  - left. split; [reflexivity |]. cbn. intros j Hj. lia.
  - destruct (Qlt_bool x best) eqn:E.
    + apply Qlt_bool_true in E.
      destruct (IH i x (S i)) as [[Hk Hlow] | (m & Hk & Hm & Hlt & Hmin & Hfirst)].
      * right. exists 0%nat. rewrite Hk.
        split; [lia |]. split; [cbn; lia |]. split; [exact E |].
        split.
        -- intros [| j] Hj; cbn in *; [lra | apply Hlow; lia].
        -- intros j Hj. lia.
      * right. exists (S m). rewrite Hk.
        split; [lia |]. split; [cbn; lia |]. cbn [nth].
        split; [lra |]. split.
        -- intros [| j] Hj; cbn in *; [lra | apply Hmin; lia].
        -- intros [| j] Hj; [exact Hlt | apply Hfirst; lia].
    + apply Qlt_bool_false in E.
      destruct (IH best_i best (S i)) as [[Hk Hlow] | (m & Hk & Hm & Hlt & Hmin & Hfirst)].
      * left. split; [exact Hk |].
        intros [| j] Hj; cbn in *; [exact E | apply Hlow; lia].
      * right. exists (S m). rewrite Hk.
        split; [lia |]. split; [cbn; lia |]. cbn [nth].
        split; [exact Hlt |]. split.
        -- intros [| j] Hj; cbn in *; [lra | apply Hmin; lia].
        -- intros [| j] Hj; [lra | apply Hfirst; lia].
Qed.

(** [argmin] returns the index of the first minimum, and fails on the
    empty list only. *)
Lemma argmin_spec (l : list Q) :
  l <> [] ->
  exists k, argmin l = Some k /\ (k < length l)%nat /\
            (forall j, (j < length l)%nat -> nth k l 0 <= nth j l 0) /\
            (forall j, (j < k)%nat -> nth k l 0 < nth j l 0).
Proof.
  destruct l as [| x r]; [congruence | intros _]. cbn [argmin].
  eexists. split; [reflexivity |].
  destruct (argmin_from_spec r 0%nat x 1%nat)
    as [[Hk Hlow] | (m & Hk & Hm & Hlt & Hmin & Hfirst)]; rewrite Hk.
  - split; [cbn; lia |]. split.
    + intros [| j] Hj; cbn in *; [lra | apply Hlow; lia].
    + intros j Hj. lia.
  - change (1 + m)%nat with (S m). cbn [nth]. split; [cbn; lia |]. split.
    + intros [| j] Hj; cbn in *; [lra | apply Hmin; lia].
    + intros [| j] Hj; [exact Hlt | apply Hfirst; lia].
Qed.

Lemma fold_max_spec (r : list Q) :
  forall x : Q,
    let m := fold_left (fun m y => if Qle_bool m y then y else m) r x in
    (m = x \/ In m r) /\ x <= m /\ (forall y, In y r -> y <= m).
Proof.
  induction r as [| y r IH]; intros x; cbn [fold_left].
  - split; [now left |]. split; [lra | intros y []].
  - destruct (Qle_bool x y) eqn:E.
    + apply Qle_bool_iff in E.
      destruct (IH y) as (Hin & Hle & Hall).
      split; [right; destruct Hin as [-> | Hin]; [now left | now right] |].
      split; [lra |].
      intros z [<- | Hz]; [exact Hle | now apply Hall].
    + apply Qle_bool_false_lt in E.
      destruct (IH x) as (Hin & Hle & Hall).
      split; [destruct Hin as [-> | Hin]; [now left | right; now right] |].
      split; [exact Hle |].
      intros z [<- | Hz]; [lra | now apply Hall].
Qed.

(** [amax] returns an element that bounds all the others, and fails on
    the empty list only. *)
Lemma amax_spec (l : list Q) :
  l <> [] ->
  exists m, amax l = Some m /\ In m l /\ (forall y, In y l -> y <= m).
Proof.
  destruct l as [| x r]; [congruence | intros _]. cbn [amax].
  eexists. split; [reflexivity |].
  destruct (fold_max_spec r x) as (Hin & Hle & Hall).
  split.
  - destruct Hin as [-> | Hin]; [now left | now right].
  - intros y [<- | Hy]; [exact Hle | now apply Hall].
Qed.

Lemma sum_bools_acc (l : list bool) :
  forall acc : Z,
    fold_left (fun a (b : bool) => (a + (if b then 1 else 0))%Z) l acc
    = (acc + Z.of_nat (length (filter (fun b => b) l)))%Z.
Proof.
  induction l as [| b l IH]; intros acc; cbn [fold_left filter].
  - cbn. lia.
  - rewrite IH. destruct b; cbn [length]; lia.
Qed.

(** [sum] over the booleans [f x] counts the [x] that satisfy [f]. *)
Lemma sum_bools_map {A : Type} (f : A -> bool) (l : list A) :
  sum_bools (map f l) = Z.of_nat (length (filter f l)).
Proof.
  unfold sum_bools. rewrite sum_bools_acc, Z.add_0_l. f_equal. f_equal.
  induction l as [| x l IH]; [reflexivity |].
  cbn [map filter]. destruct (f x); cbn [length]; now rewrite IH.
Qed.

End NumpyProps.

(* ================================================================== *)
(** ** Properties of the fine refinement *)
(* ================================================================== *)

Module RefineProps.

Import Clock Numpy Predictor QOrder NumpyProps.
Local Open Scope Z_scope.

Lemma int_total_seconds (td : timedelta) :
  int (total_seconds td) = Z.quot td 1000000.
Proof.
  unfold int, total_seconds, Qdiv, Qmult, Qinv, inject_Z. cbn.
  now rewrite Z.mul_1_r.
Qed.

Lemma times_from_seq (n : nat) :
  forall (a : nat) (t : datetime),
    times_from n (t + Z.of_nat a * 1000000)
    = map (fun i => t + Z.of_nat i * 1000000) (seq a n).
Proof.
  induction n as [| n IH]; intros a t; cbn [times_from seq map]; [reflexivity |].
  f_equal. rewrite <- (IH (S a) t). f_equal.
  unfold timedelta_seconds. lia.
Qed.

(** The list the loop of lines 209-213 builds is the padded grid. *)
Lemma times_list_fine_grid (s e : datetime) :
  times_from
    (Z.to_nat (int (total_seconds
       (e + timedelta_minutes 1 - (s - timedelta_minutes 1)))))
    (s - timedelta_minutes 1)
  = fine_grid s e.
Proof.
  rewrite int_total_seconds. unfold fine_grid, fine_len, fine_instant.
  unfold timedelta_minutes.
  replace (e + 1 * 60000000 - (s - 1 * 60000000)) with (e - s + 120000000) by lia.
  replace (s - 1 * 60000000) with (s - 60000000 + Z.of_nat 0 * 1000000) at 1 by lia.
  now rewrite times_from_seq.
Qed.

Lemma fine_grid_length (s e : datetime) :
  length (fine_grid s e) = fine_len s e.
Proof. unfold fine_grid. now rewrite length_map, length_seq. Qed.

Lemma fine_grid_nth (s e : datetime) (i : nat) :
  (i < fine_len s e)%nat -> nth i (fine_grid s e) 0 = fine_instant s i.
Proof.
  intros Hi. unfold fine_grid.
  rewrite (nth_indep _ 0 (fine_instant s 0%nat)) by now rewrite length_map, length_seq.
  rewrite map_nth, seq_nth by exact Hi. reflexivity.
Qed.

Lemma fine_grid_In (s e t : datetime) :
  In t (fine_grid s e) <-> exists i, (i < fine_len s e)%nat /\ t = fine_instant s i.
Proof.
  unfold fine_grid. rewrite in_map_iff. split.
  - intros (i & <- & Hi). apply in_seq in Hi. exists i. split; [lia | reflexivity].
  - intros (i & Hi & ->). exists i. split; [reflexivity | apply in_seq; lia].
Qed.

(** A window that does not end before it starts has a grid of at least
    120 instants, all of them inside the padded interval. *)
Lemma fine_len_bounds (s e : datetime) :
  s <= e ->
  (120 <= fine_len s e)%nat /\
  Z.of_nat (fine_len s e) * 1000000 <= e - s + 120000000 /\
  e - s + 120000000 < (Z.of_nat (fine_len s e) + 1) * 1000000.
Proof.
  intros Hse. unfold fine_len.
  rewrite Z.quot_div_nonneg by lia.
  assert (H := Z.div_mod (e - s + 120000000) 1000000 ltac:(lia)).
  assert (H' := Z.mod_pos_bound (e - s + 120000000) 1000000 ltac:(lia)).
  assert (120 <= (e - s + 120000000) / 1000000)
    by (apply Z.div_le_lower_bound; lia).
  rewrite Z2Nat.id by lia. repeat split; lia.
Qed.

Lemma fine_grid_nonempty (s e : datetime) : s <= e -> fine_grid s e <> [].
Proof.
  intros Hse Hnil. apply (f_equal (@length _)) in Hnil.
  rewrite fine_grid_length in Hnil. cbn in Hnil.
  destruct (fine_len_bounds Hse) as (H & _). lia.
Qed.

Lemma nth_map_lt {A B : Type} (f : A -> B) (l : list A) (k : nat) (d : A) (d' : B) :
  (k < length l)%nat -> nth k (map f l) d' = f (nth k l d).
Proof.
  intros Hk. rewrite (nth_indep _ d' (f d)) by now rewrite length_map.
  apply map_nth.
Qed.

Lemma refine_pass_data_char (self : ISSPassPredictor) (s e : datetime) :
  fine_grid s e <> [] ->
  exists k m,
    first_argmin (range_at self) (fine_grid s e) k /\
    maximum_over (elevation_at self) (fine_grid s e) m /\
    refine_pass_data self s e = refined self s e k m.
Proof.
  intros Hne. unfold refine_pass_data, refined.
  rewrite times_list_fine_grid.
  set (grid := fine_grid s e) in *.
  rewrite !map_map.
  destruct (argmin_spec (l := map (fun t => distance_km (altaz self t)) grid))
    as (k & -> & Hk & Hmin & Hfirst).
  { destruct grid; [congruence | discriminate]. }
  rewrite length_map in Hk, Hmin.
  destruct (amax_spec (l := map (fun t => alt_degrees (altaz self t)) grid))
    as (m & -> & Hin & Hmax).
  { destruct grid; [congruence | discriminate]. }
  exists k, m.
  assert (Hnth : forall j, (j < length grid)%nat ->
            nth j (map (fun t => distance_km (altaz self t)) grid) 0%Q
            = range_at self (nth j grid 0)).
  { intros j Hj. now rewrite (nth_map_lt _ _ 0 0%Q Hj). }
  split; [| split].
  - split; [exact Hk |]. split.
    + intros j Hj. rewrite <- !Hnth by assumption. now apply Hmin.
    + intros j Hj. rewrite <- !Hnth by lia. now apply Hfirst.
  - split.
    + apply in_map_iff in Hin. destruct Hin as (t & <- & Ht). now exists t.
    + intros t Ht. apply Hmax. apply in_map_iff. now exists t.
  - rewrite (Hnth k Hk).
    destruct (Qlt_bool (max_distance_km self) (range_at self (nth k grid 0)));
      [reflexivity |].
    rewrite sum_bools_map. unfold days_from.
    destruct (Accuracy.estimate_accuracy _). reflexivity.
Qed.

End RefineProps.

(* ================================================================== *)
(** ** Properties of the coarse scan *)
(* ================================================================== *)

Module ScanProps.

Import Clock Numpy Predictor QOrder NumpyProps RefineProps.
Local Open Scope Z_scope.

Lemma step_value : step = 60000000.
Proof. reflexivity. Qed.

Lemma tick_succ (start_time : datetime) (k : nat) :
  tick start_time (S k) = tick start_time k + step.
Proof. unfold tick. rewrite step_value. lia. Qed.

Lemma tick_lt (start_time : datetime) (a b : nat) :
  (a < b)%nat -> tick start_time a + step <= tick start_time b.
Proof. unfold tick. rewrite step_value. lia. Qed.

Lemma tick_diff (start_time : datetime) (a b : nat) :
  tick start_time b - tick start_time a
  = (Z.of_nat b - Z.of_nat a) * 60 * 1000000.
Proof. unfold tick. rewrite step_value. lia. Qed.

(** The loop body as a function of the two booleans it branches on. *)
Lemma scan_body_eq (self : ISSPassPredictor) (st : Scan) :
  scan_body self st =
  if in_range self (current st) then
    Returned {| current := current st + step;
                window_start := if in_window st then window_start st
                                else Some (current st);
                in_window := true;
                passes := passes st |}
  else if in_window st then
    match window_start st with
    | None => Raised
    | Some ws =>
        r <- refine_pass_data self ws (current st) ;;
        Returned {| current := current st + step;
                    window_start := Some ws;
                    in_window := false;
                    passes := passes st ++ emitted r |}
    end
  else
    Returned {| current := current st + step;
                window_start := window_start st;
                in_window := false;
                passes := passes st |}.
Proof.
  unfold scan_body, in_range, range_at.
  destruct (Qle_bool _ _); destruct (in_window st) eqn:Ew; cbn;
    rewrite ?Ew; try reflexivity.
  destruct (window_start st) as [ws |]; [| reflexivity].
  destruct (refine_pass_data self ws (current st)) as [[p |] | |]; cbn;
    rewrite ?app_nil_r; reflexivity.
Qed.

(** The fields of a refined pass. *)
Lemma refine_some (self : ISSPassPredictor) (s e : datetime) (p : Pass) :
  s <= e ->
  refine_pass_data self s e = Returned (Some p) ->
  exists k m,
    first_argmin (range_at self) (fine_grid s e) k /\
    maximum_over (elevation_at self) (fine_grid s e) m /\
    (range_at self (fine_instant s k) <= max_distance_km self)%Q /\
    p = {| start := s;
           end_ := e;
           closest_time := fine_instant s k;
           min_distance := range_at self (fine_instant s k);
           max_altitude := m;
           duration := (inject_Z (in_range_count self s e) / 60)%Q;
           error_km := fst (Accuracy.estimate_accuracy
                              (days_from self (fine_instant s k)));
           reliability := snd (Accuracy.estimate_accuracy
                              (days_from self (fine_instant s k))) |}.
Proof.
  intros Hse Hr.
  destruct (@refine_pass_data_char self s e (fine_grid_nonempty Hse))
    as (k & m & Hk & Hm & Heq).
  rewrite Heq in Hr. unfold refined in Hr.
  assert (Hlen : (k < fine_len s e)%nat)
    by (rewrite <- (fine_grid_length s e); apply Hk).
  rewrite (fine_grid_nth s e Hlen) in Hr.
  destruct (Qlt_bool _ _) eqn:E; [discriminate |].
  apply Qlt_bool_false in E.
  exists k, m. repeat split; try apply Hk; try apply Hm; try exact E.
  now injection Hr as <-.
Qed.

(** Two refined windows of one scan: the closest approaches come in the
    order of the windows. *)
Lemma closest_order (self : ISSPassPredictor) (s1 e1 s2 e2 d : datetime)
    (p q : Pass) :
  s1 <= e1 -> e1 + step <= s2 -> s2 <= e2 ->
  s2 - s1 = d * 1000000 ->
  refine_pass_data self s1 e1 = Returned (Some p) ->
  refine_pass_data self s2 e2 = Returned (Some q) ->
  pass_before p q.
Proof.
  intros H1 H12 H2 Hd Hp Hq. rewrite step_value in H12.
  destruct (@refine_some self s1 e1 p H1 Hp) as (k1 & m1 & (Hk1 & Hmin1 & Hfirst1) & _ & _ & ->).
  destruct (@refine_some self s2 e2 q H2 Hq) as (k2 & m2 & (Hk2 & Hmin2 & Hfirst2) & _ & _ & ->).
  rewrite fine_grid_length in Hk1, Hk2, Hmin1, Hmin2.
  destruct (@fine_len_bounds s1 e1 H1) as (Hn1 & Hlo1 & Hhi1).
  destruct (@fine_len_bounds s2 e2 H2) as (Hn2 & Hlo2 & Hhi2).
  unfold pass_before. cbn [start end_ closest_time]. rewrite step_value.
  split; [lia |]. split.
  - destruct (Z_le_gt_dec (fine_instant s1 k1) (fine_instant s2 k2)) as [Hle | Hgt];
      [exact Hle | exfalso].
    unfold fine_instant in Hgt.
    assert (Ha : (range_at self (fine_instant s1 k1)
                  < range_at self (fine_instant s2 k2))%Q).
    { specialize (Hfirst1 (Z.to_nat (d + Z.of_nat k2)) ltac:(lia)).
      rewrite !fine_grid_nth in Hfirst1 by lia.
      replace (fine_instant s1 (Z.to_nat (d + Z.of_nat k2)))
        with (fine_instant s2 k2) in Hfirst1
        by (unfold fine_instant; rewrite Z2Nat.id by lia; lia).
      exact Hfirst1. }
    assert (Hb : (range_at self (fine_instant s2 k2)
                  <= range_at self (fine_instant s1 k1))%Q).
    { specialize (Hmin2 (Z.to_nat (Z.of_nat k1 - d)) ltac:(lia)).
      rewrite !fine_grid_nth in Hmin2 by lia.
      replace (fine_instant s2 (Z.to_nat (Z.of_nat k1 - d)))
        with (fine_instant s1 k1) in Hmin2
        by (unfold fine_instant; rewrite Z2Nat.id by lia; lia).
      exact Hmin2. }
    lra.
  - intros Hfar. unfold fine_instant. lia.
Qed.


Lemma StronglySorted_snoc {A : Type} (R : A -> A -> Prop) (l : list A) (x : A) :
  StronglySorted R l -> Forall (fun y => R y x) l -> StronglySorted R (l ++ [x]).
Proof.
  induction 1 as [| y l Hl IH Hy]; intros Hx; cbn.
  - constructor; constructor.
  - inversion Hx as [| ? ? Hyx Hlx]; subst. constructor.
    + now apply IH.
    + apply Forall_app. split; [exact Hy | now constructor].
Qed.

Lemma closed_window_fields (self : ISSPassPredictor) (start_time : datetime)
    (k : nat) (p : Pass) :
  closed_window self start_time k p ->
  exists a b, (a < b)%nat /\ (b < k)%nat /\
    start p = tick start_time a /\ end_ p = tick start_time b /\
    refine_pass_data self (tick start_time a) (tick start_time b) = Returned (Some p).
Proof.
  intros (a & b & Hab & Hbk & Hr). exists a, b.
  assert (Hle : tick start_time a <= tick start_time b).
  { pose proof (@tick_lt start_time a b Hab). rewrite step_value in *. lia. }
  destruct (@refine_some self _ _ p Hle Hr) as (i & m & _ & _ & _ & Hp).
  rewrite Hp at 1 2. cbn. auto.
Qed.

Lemma closed_window_mono (self : ISSPassPredictor) (start_time : datetime)
    (k k' : nat) (p : Pass) :
  (k <= k')%nat -> closed_window self start_time k p ->
  closed_window self start_time k' p.
Proof.
  intros Hk (a & b & Hab & Hbk & Hr). exists a, b.
  split; [exact Hab |]. split; [lia | exact Hr].
Qed.

(** A window between two ticks is never empty: its refinement returns. *)
Lemma refine_returns (self : ISSPassPredictor) (s e : datetime) :
  s <= e -> exists r, refine_pass_data self s e = Returned r.
Proof.
  intros Hse.
  destruct (@refine_pass_data_char self s e (fine_grid_nonempty Hse))
    as (k & m & _ & _ & ->).
  unfold refined. destruct (Qlt_bool _ _); eauto.
Qed.

(** One turn of the loop keeps the invariant, and does not raise. *)
Lemma scan_body_inv (self : ISSPassPredictor) (start_time : datetime)
    (k : nat) (st : Scan) :
  scan_inv self start_time k st ->
  exists st', scan_body self st = Returned st' /\ scan_inv self start_time (S k) st'.
Proof.
  intros (Hcur & Hwin & Hclosed & Hsorted).
  assert (Hclosed' : Forall (closed_window self start_time (S k)) (passes st)).
  { eapply Forall_impl; [| exact Hclosed].
    intros p. apply closed_window_mono. lia. }
  rewrite scan_body_eq.
  destruct (in_range self (current st)) eqn:Er.
  - eexists. split; [reflexivity |].
    split; [cbn [current]; rewrite tick_succ, ?Hcur; reflexivity |].
    split; [| split; assumption]. cbn [in_window window_start passes]. intros _.
    destruct (in_window st) eqn:Ew.
    + destruct (Hwin eq_refl) as (j & Hj & Hws & Hall & Hends).
      exists j. split; [lia |]. split; [exact Hws |]. split; [| exact Hends].
      intros i Hi. destruct (Nat.eq_dec i k) as [-> | Hne].
      * now rewrite <- Hcur.
      * apply Hall. lia.
    + exists k. split; [lia |]. split; [now rewrite Hcur |]. split.
      * intros i Hi. replace i with k by lia. now rewrite <- Hcur.
      * eapply Forall_impl; [| exact Hclosed]. intros p Hp.
        destruct (closed_window_fields Hp) as (a & b & _ & Hbk & _ & -> & _).
        now apply tick_lt.
  - destruct (in_window st) eqn:Ew.
    + destruct (Hwin eq_refl) as (j & Hj & Hws & Hall & Hends).
      rewrite Hws, Hcur.
      assert (Hle : tick start_time j <= tick start_time k).
      { pose proof (@tick_lt start_time j k Hj). rewrite step_value in *. lia. }
      destruct (@refine_returns self _ _ Hle) as (r & Hr). rewrite Hr.
      eexists. split; [reflexivity |].
      split; [cbn [current]; rewrite tick_succ, ?Hcur; reflexivity |].
      split; [cbn [in_window]; discriminate |]. cbn [passes].
      destruct r as [p |]; cbn [emitted]; [| rewrite app_nil_r; now split].
      split.
      * apply Forall_app. split; [exact Hclosed' |].
        constructor; [| constructor]. exists j, k. repeat split; [lia | lia | exact Hr].
      * apply StronglySorted_snoc; [exact Hsorted |].
        rewrite Forall_forall in *. intros q Hq.
        destruct (closed_window_fields (Hclosed q Hq))
          as (a & b & Hab & Hbk & _ & Hend & Hrq).
        specialize (Hends q Hq). rewrite Hend in Hends.
        pose proof (@tick_lt start_time a b Hab) as Hab'. rewrite step_value in *.
        apply (@closest_order self (tick start_time a) (tick start_time b)
                 (tick start_time j) (tick start_time k)
                 ((Z.of_nat j - Z.of_nat a) * 60) q p); try assumption; try lia.
        rewrite tick_diff. lia.
    + eexists. split; [reflexivity |].
      split; [cbn [current]; rewrite tick_succ, ?Hcur; reflexivity |].
      split; [cbn [in_window]; discriminate | now split].
Qed.

Lemma scan_init_inv (self : ISSPassPredictor) (start_time : datetime) :
  scan_inv self start_time 0 (scan_init start_time).
Proof.
  split; [unfold tick; cbn; lia |]. split; [cbn; discriminate |].
  split; constructor.
Qed.

(** The first [k] turns return, and their state satisfies the invariant. *)
Lemma scan_turns_inv (self : ISSPassPredictor) (start_time : datetime) (k : nat) :
  scan_turns self k (scan_init start_time) = Returned (scan_state self start_time k) /\
  scan_inv self start_time k (scan_state self start_time k).
Proof.
  induction k as [| k [IHr IHi]].
  - split; [reflexivity | apply scan_init_inv].
  - destruct (scan_body_inv IHi) as (st' & Hb & Hi).
    assert (Hs : scan_turns self (S k) (scan_init start_time) = Returned st').
    { cbn [scan_turns]. rewrite IHr. exact Hb. }
    assert (Hst : scan_state self start_time (S k) = st')
      by (unfold scan_state; now rewrite Hs).
    rewrite Hst. now split.
Qed.

Lemma scan_state_succ (self : ISSPassPredictor) (start_time : datetime) (k : nat) :
  scan_body self (scan_state self start_time k)
  = Returned (scan_state self start_time (S k)).
Proof.
  destruct (scan_turns_inv self start_time k) as (Hk & _).
  destruct (scan_turns_inv self start_time (S k)) as (HSk & _).
  cbn [scan_turns] in HSk. rewrite Hk in HSk. exact HSk.
Qed.


(** *** The [while] loop runs the body once per tick before [end_dt] *)

Lemma scan_body_current (self : ISSPassPredictor) (st st' : Scan) :
  scan_body self st = Returned st' -> current st' = current st + step.
Proof.
  rewrite scan_body_eq.
  destruct (in_range self (current st)); [intros [= <-]; reflexivity |].
  destruct (in_window st); [| intros [= <-]; reflexivity].
  destruct (window_start st) as [ws |]; [| discriminate].
  destruct (refine_pass_data self ws (current st)); cbn; [| discriminate ..].
  intros [= <-]. reflexivity.
Qed.

(** Running the body first and then [k] turns is running [S k] turns. *)
Lemma scan_turns_shift (self : ISSPassPredictor) (k : nat) (st : Scan) :
  scan_turns self (S k) st = (st' <- scan_body self st ;; scan_turns self k st').
Proof.
  induction k as [| k IH].
  - cbn. now destruct (scan_body self st).
  - change (scan_turns self (S (S k)) st)
      with (st' <- scan_turns self (S k) st ;; scan_body self st').
    rewrite IH. destruct (scan_body self st); reflexivity.
Qed.

Lemma scan_loop_turns (self : ISSPassPredictor) (end_dt : datetime) (n : nat) :
  forall (fuel : nat) (st : Scan),
    (n < fuel)%nat ->
    (forall i, (i < n)%nat -> current st + Z.of_nat i * step < end_dt) ->
    end_dt <= current st + Z.of_nat n * step ->
    scan_loop fuel self end_dt st = scan_turns self n st.
Proof.
  induction n as [| n IH]; intros fuel st Hfuel Hbefore Hafter;
    (destruct fuel as [| fuel]; [lia |]); cbn [scan_loop].
  - replace (current st <? end_dt) with false by (symmetry; apply Z.ltb_ge; lia).
    reflexivity.
  - replace (current st <? end_dt) with true
      by (symmetry; apply Z.ltb_lt; specialize (Hbefore 0%nat ltac:(lia)); lia).
    rewrite scan_turns_shift.
    destruct (scan_body self st) as [st' | |] eqn:Hb; cbn [bind]; try reflexivity.
    apply scan_body_current in Hb. apply IH; [lia | |].
    + intros i Hi. specialize (Hbefore (S i) ltac:(lia)). lia.
    + lia.
Qed.

(** The ticks of a scan are those before [end_dt], and [turns] counts
    them. *)
Lemma turns_spec (start_time end_dt : datetime) (k : nat) :
  (k < turns start_time end_dt)%nat <-> tick start_time k < end_dt.
Proof.
  unfold turns, tick. rewrite step_value.
  set (x := end_dt - start_time + 60000000 - 1).
  assert (H := Z.div_mod x 60000000 ltac:(lia)).
  assert (H' := Z.mod_pos_bound x 60000000 ltac:(lia)).
  split; lia.
Qed.

(** The scan returns the state after [turns] turns. *)
Lemma scan_eq (self : ISSPassPredictor) (start_time end_dt : datetime) :
  scan self start_time end_dt
  = Returned (scan_state self start_time (turns start_time end_dt)).
Proof.
  unfold scan.
  change {| current := start_time; window_start := None;
            in_window := false; passes := [] |} with (scan_init start_time).
  rewrite (@scan_loop_turns self end_dt (turns start_time end_dt)).
  - apply scan_turns_inv.
  - lia.
  - intros i Hi. apply turns_spec in Hi. exact Hi.
  - apply Z.le_ngt. intros Hlt.
    apply (proj2 (turns_spec start_time end_dt _)) in Hlt. lia.
Qed.

(** While the ticks stay in range the list of passes does not change. *)
Lemma passes_unchanged_in_range (self : ISSPassPredictor) (start_time : datetime)
    (j : nat) :
  forall n : nat,
    (j <= n)%nat ->
    (forall i, (j <= i < n)%nat -> in_range self (tick start_time i) = true) ->
    passes (scan_state self start_time n) = passes (scan_state self start_time j).
Proof.
  induction n as [| n IH]; intros Hjn Hall.
  - now replace j with 0%nat by lia.
  - destruct (Nat.eq_dec j (S n)) as [-> | Hne]; [reflexivity |].
    rewrite <- IH by (try lia; intros i Hi; apply Hall; lia).
    pose proof (scan_state_succ self start_time n) as Hs.
    destruct (scan_turns_inv self start_time n) as (_ & Hcur & _).
    rewrite scan_body_eq, Hcur, Hall in Hs by lia.
    injection Hs as <-. reflexivity.
Qed.

End ScanProps.

(* ================================================================== *)
(** ** Properties of the search *)
(* ================================================================== *)

Module SearchProps.

Import Clock Numpy Predictor Scenarios QOrder NumpyProps RefineProps ScanProps.
Local Open Scope Z_scope.

(** [calculate_passes] returns the passes of the loop state after the
    last turn. *)
Lemma calculate_passes_eq (self : ISSPassPredictor) (years : Q) (w : World) :
  calculate_passes self years w
  = Returned (passes (scan_state self (ts_now w)
       (turns (ts_now w) (ts_now w + timedelta_days (365 * years))))).
Proof. unfold calculate_passes. now rewrite scan_eq. Qed.

(** The padded grid is the set of instants a whole number of seconds
    after [s - 1 min] whose second ends by [e + 1 min]. *)
Lemma fine_grid_padded (s e t : datetime) :
  s <= e ->
  (In t (fine_grid s e) <->
   exists i : nat,
     t = s - timedelta_minutes 1 + Z.of_nat i * timedelta_seconds 1 /\
     t + timedelta_seconds 1 <= e + timedelta_minutes 1).
Proof.
  intros Hse. destruct (@fine_len_bounds s e Hse) as (_ & Hlo & Hhi).
  rewrite fine_grid_In. unfold fine_instant, timedelta_minutes, timedelta_seconds.
  split.
  - intros (i & Hi & ->). exists i. split; lia.
  - intros (i & -> & Hi). exists i. split; lia.
Qed.

(** C3: for a window [[s, e)] with [s <= e], the grid [refine_pass_data]
    samples is the uniform one-second grid of the interval padded by one
    minute on both sides; the call returns; it returns [None] exactly
    when the minimum range over the grid (the range at the index [k] of
    its first minimum) exceeds [max_distance_km]; and a pass it returns
    has [min_distance <= max_distance_km], with [min_distance] the
    minimum range, [closest_time] the grid instant at the argmin index
    and [max_altitude] the maximum elevation over the whole grid. *)
Theorem refine_pass_data_contract (self : ISSPassPredictor) (s e : datetime) :
  s <= e ->
  let grid := fine_grid s e in
  (forall t, In t grid <->
     exists i : nat,
       t = s - timedelta_minutes 1 + Z.of_nat i * timedelta_seconds 1 /\
       t + timedelta_seconds 1 <= e + timedelta_minutes 1) /\
  exists k,
    first_argmin (range_at self) grid k /\
    (exists r, refine_pass_data self s e = Returned r) /\
    (refine_pass_data self s e = Returned None <->
     (max_distance_km self < range_at self (nth k grid 0%Z))%Q) /\
    (forall p, refine_pass_data self s e = Returned (Some p) ->
       (min_distance p <= max_distance_km self)%Q /\
       min_distance p = range_at self (nth k grid 0) /\
       closest_time p = nth k grid 0 /\
       maximum_over (elevation_at self) grid (max_altitude p)).
Proof.
  intros Hse grid. split; [intros t; now apply fine_grid_padded |].
  destruct (@refine_pass_data_char self s e (fine_grid_nonempty Hse))
    as (k & m & Hk & Hm & Heq).
  fold grid in Hk, Hm. exists k. split; [exact Hk |].
  rewrite Heq. unfold refined. fold grid.
  destruct (Qlt_bool _ _) eqn:E.
  - apply Qlt_bool_true in E.
    split; [eauto |]. split; [tauto |]. intros p [=].
  - apply Qlt_bool_false in E.
    split; [eauto |]. split.
    + split; [intros [=] | intros Hlt; exfalso; lra].
    + intros p [= <-]. cbn. auto.
Qed.

(** The contract read on the window [[240 s, 420 s)] of the range
    [500 + 5 |t - 300 s|]. *)
Lemma refine_pass_data_contract_witness :
  sec 240 <= sec 420 /\
  forall p,
    refine_pass_data (predictor_of vee_range) (sec 240) (sec 420) = Returned (Some p) ->
    (min_distance p <= 1000)%Q.
Proof.
  assert (H : sec 240 <= sec 420) by discriminate.
  split; [exact H |].
  destruct (@refine_pass_data_contract (predictor_of vee_range) (sec 240) (sec 420) H)
    as (_ & k & _ & _ & _ & Hall).
  intros p Hp. exact (proj1 (Hall p Hp)).
Defined.

(** C6 does not hold as worded: on the range [500 + 5 |t - 300 s|] the
    search emits one pass whose window has 201 grid instants in range,
    and the [duration] it carries is [201 / 60], not 201. *)
Lemma duration_field_is_not_the_count :
  exists p,
    calculate_passes (predictor_of vee_range) short_years at_origin = Returned [p] /\
    in_range_count (predictor_of vee_range) (start p) (end_ p) = 201 /\
    ~ (duration p == inject_Z 201)%Q.
Proof.
  eexists. split; [vm_compute; reflexivity |].
  split; [vm_compute; reflexivity |].
  cbn [duration]. intros H. vm_compute in H. discriminate.
Qed.

(** C6, amended: [calculate_passes] returns, and every pass it emits
    carries as [duration] the number of instants of its padded
    one-second grid whose range is at most [max_distance_km]
    (inclusive), divided by 60: the occupancy in minutes, not
    [end - start]. *)
Theorem duration_is_in_range_count_in_minutes
    (self : ISSPassPredictor) (years : Q) (w : World) :
  exists ps,
    calculate_passes self years w = Returned ps /\
    Forall (fun p =>
      duration p
      = (inject_Z (Z.of_nat (length
           (filter (fun t => Qle_bool (range_at self t) (max_distance_km self))
                   (fine_grid (start p) (end_ p))))) / 60)%Q) ps.
Proof.
  eexists. split; [apply calculate_passes_eq |].
  destruct (scan_turns_inv self (ts_now w)
              (turns (ts_now w) (ts_now w + timedelta_days (365 * years))))
    as (_ & _ & _ & Hclosed & _).
  eapply Forall_impl; [| exact Hclosed]. intros p (a & b & Hab & _ & Hr).
  assert (Hle : tick (ts_now w) a <= tick (ts_now w) b).
  { pose proof (@tick_lt (ts_now w) a b Hab). rewrite step_value in *. lia. }
  destruct (@refine_some self _ _ p Hle Hr) as (i & m & _ & _ & _ & ->).
  reflexivity.
Qed.


(** C2 does not hold as worded: with a range that is in the threshold at
    the ticks 60 s and 180 s, out of it at the tick 120 s between them
    and smallest at 150 s, the two padded grids share the instant 150 s
    and the search emits two passes with that same [closest_time]; the
    output is not strictly ascending. *)
Lemma closest_time_not_strictly_ascending :
  exists p q,
    calculate_passes (predictor_of twin_range) short_years at_origin
      = Returned [p; q] /\
    closest_time p = closest_time q /\
    ~ StronglySorted (fun a b => closest_time a < closest_time b) [p; q].
Proof.
  do 2 eexists. split; [vm_compute; reflexivity |].
  split; [reflexivity |].
  intros H. inversion H as [| ? ? _ Hall]; subst.
  inversion Hall as [| ? ? Hlt _]; subst.
  cbn in Hlt. lia.
Qed.

(** C2, amended: [calculate_passes] returns, and in the list it returns
    every pass has [start < end] and, for any two passes in list order,
    the earlier window ends at least one coarse step before the later
    one starts (the windows do not overlap and are in strictly ascending
    order), the closest approaches are in ascending order, and they are
    in strictly ascending order whenever the two windows are at least
    two coarse steps apart. *)
Theorem passes_ordered_and_disjoint
    (self : ISSPassPredictor) (years : Q) (w : World) :
  exists ps,
    calculate_passes self years w = Returned ps /\
    Forall (fun p => start p < end_ p) ps /\
    StronglySorted
      (fun p q =>
         end_ p + step <= start q /\
         closest_time p <= closest_time q /\
         (end_ p + 2 * step <= start q -> closest_time p < closest_time q))
      ps.
Proof.
  eexists. split; [apply calculate_passes_eq |].
  destruct (scan_turns_inv self (ts_now w)
              (turns (ts_now w) (ts_now w + timedelta_days (365 * years))))
    as (_ & _ & _ & Hclosed & Hsorted).
  split; [| exact Hsorted].
  eapply Forall_impl; [| exact Hclosed]. intros p Hp.
  destruct (closed_window_fields Hp) as (a & b & Hab & _ & -> & -> & _).
  pose proof (@tick_lt (ts_now w) a b Hab). rewrite step_value in *. lia.
Qed.

(** C1 does not hold as worded: [calculate_passes] takes its first
    instant from the clock, and with the same predictor and the same
    number of years two calls made half a minute apart return different
    lists. *)
Lemma search_reads_the_clock :
  calculate_passes (predictor_of box_range) short_years at_origin
  <> calculate_passes (predictor_of box_range) short_years half_minute_later.
Proof. vm_compute. intros [=]. Qed.

Lemma refine_pass_data_ext (self1 self2 : ISSPassPredictor) (s e : datetime) :
  max_distance_km self1 = max_distance_km self2 ->
  tle_epoch self1 = tle_epoch self2 ->
  (forall t, In t (fine_grid s e) -> altaz self1 t = altaz self2 t) ->
  refine_pass_data self1 s e = refine_pass_data self2 s e.
Proof.
  intros Hmax Hepoch Hsame. unfold refine_pass_data.
  rewrite times_list_fine_grid.
  rewrite (map_ext_in _ _ _ Hsame), Hmax, Hepoch. reflexivity.
Qed.

Lemma scan_body_ext (self1 self2 : ISSPassPredictor) (st : Scan) :
  max_distance_km self1 = max_distance_km self2 ->
  altaz self1 (current st) = altaz self2 (current st) ->
  (in_window st = true ->
   forall ws, window_start st = Some ws ->
     refine_pass_data self1 ws (current st) = refine_pass_data self2 ws (current st)) ->
  scan_body self1 st = scan_body self2 st.
Proof.
  intros Hmax Hcur Hrefine. unfold scan_body. rewrite Hmax, Hcur.
  destruct (Qle_bool _ _); [reflexivity |].
  destruct (in_window st); [| reflexivity].
  destruct (window_start st) as [ws |]; [| reflexivity].
  now rewrite (Hrefine eq_refl ws eq_refl).
Qed.

(** C1, amended: the list [calculate_passes] returns is determined by
    the reading of the clock on entry together with the number of years,
    the threshold, the epoch and the values of the propagator between
    one minute before that reading and one minute after the end of the
    horizon: two calls that agree on these return the same list. *)
Theorem search_determined_by_inputs_and_clock
    (self1 self2 : ISSPassPredictor) (years : Q) (w1 w2 : World) :
  ts_now w1 = ts_now w2 ->
  max_distance_km self1 = max_distance_km self2 ->
  tle_epoch self1 = tle_epoch self2 ->
  (forall t,
     ts_now w1 - timedelta_minutes 1 <= t ->
     t < ts_now w1 + timedelta_days (365 * years) + timedelta_minutes 1 ->
     altaz self1 t = altaz self2 t) ->
  calculate_passes self1 years w1 = calculate_passes self2 years w2.
Proof.
  intros Hnow Hmax Hepoch Hsame.
  rewrite !calculate_passes_eq, <- Hnow.
  set (start_time := ts_now w1) in *.
  set (end_dt := start_time + timedelta_days (365 * years)) in *.
  enough (Hk : forall k, (k <= turns start_time end_dt)%nat ->
            scan_state self1 start_time k = scan_state self2 start_time k)
    by (now rewrite Hk).
  induction k as [| k IH]; intros Hk; [reflexivity |].
  specialize (IH ltac:(lia)).
  pose proof (scan_state_succ self1 start_time k) as H1.
  pose proof (scan_state_succ self2 start_time k) as H2.
  rewrite <- IH in H2.
  destruct (scan_turns_inv self1 start_time k) as (_ & Hcur & Hwin & _ & _).
  assert (Hend : tick start_time k < end_dt) by (apply turns_spec; lia).
  assert (Hstart : start_time <= tick start_time k)
    by (unfold tick; rewrite step_value; lia).
  unfold timedelta_minutes in Hsame.
  rewrite (@scan_body_ext self1 self2) in H1; [congruence | exact Hmax | |].
  - rewrite Hcur. apply Hsame; lia.
  - intros Hopen ws Hws. rewrite Hcur.
    destruct (Hwin Hopen) as (j & Hj & Hwsj & _).
    rewrite Hws in Hwsj. injection Hwsj as ->.
    assert (Hle : tick start_time j <= tick start_time k).
    { pose proof (@tick_lt start_time j k Hj). rewrite step_value in *. lia. }
    apply refine_pass_data_ext; [exact Hmax | exact Hepoch |].
    intros t Ht. apply (fine_grid_padded t Hle) in Ht.
    destruct Ht as (i & -> & Hi).
    unfold timedelta_minutes, timedelta_seconds in *.
    assert (start_time <= tick start_time j)
      by (unfold tick; rewrite step_value; lia).
    apply Hsame; lia.
Qed.


(** Two predictors that differ only after the padded horizon, read at
    the same clock. *)
Lemma search_determined_by_inputs_and_clock_witness :
  calculate_passes (predictor_of box_range) short_years at_origin
  = calculate_passes (predictor_of box_then_near_range) short_years at_origin.
Proof.
  apply search_determined_by_inputs_and_clock; try reflexivity.
  intros t _ Hhi.
  assert (E : ts_now at_origin + timedelta_days (365 * short_years)
              + timedelta_minutes 1 = 541201172) by reflexivity.
  rewrite E in Hhi.
  unfold predictor_of, box_then_near_range. cbn [altaz].
  replace (t <? sec 600) with true; [reflexivity |].
  symmetry. apply Z.ltb_lt. unfold sec, timedelta_seconds. lia.
Defined.

(** C7: the scan visits the ticks [start + k * 60 s] that lie before the
    end of the horizon, one per turn of the loop, and [calculate_passes]
    returns the passes of the state after the last of them.  At the tick
    [t] of a turn, [in_window] becomes the in-range test
    [distance <= max_distance_km] of that tick; on a false-to-true
    transition [t] is recorded as the window start; on a true-to-false
    transition the window from the recorded start to [t] is handed to
    [refine_pass_data] and what it returns is appended to the passes;
    otherwise nothing but the current instant changes. *)
Theorem coarse_scan_state_machine
    (self : ISSPassPredictor) (years : Q) (w : World) :
  let start_time := ts_now w in
  let end_dt := start_time + timedelta_days (365 * years) in
  let n := turns start_time end_dt in
  let state := scan_state self start_time in
  (forall k, (k < n)%nat <-> start_time + Z.of_nat k * timedelta_minutes 1 < end_dt) /\
  state 0%nat = scan_init start_time /\
  calculate_passes self years w = Returned (passes (state n)) /\
  forall k,
    let t := start_time + Z.of_nat k * timedelta_minutes 1 in
    current (state k) = t /\
    scan_body self (state k) = Returned (state (S k)) /\
    in_window (state (S k)) = Qle_bool (distance_km (altaz self t)) (max_distance_km self) /\
    match in_window (state k), in_window (state (S k)) with
    | false, true =>
        window_start (state (S k)) = Some t /\
        passes (state (S k)) = passes (state k)
    | true, false =>
        exists ws r,
          window_start (state k) = Some ws /\
          refine_pass_data self ws t = Returned r /\
          passes (state (S k)) = passes (state k) ++ emitted r /\
          window_start (state (S k)) = window_start (state k)
    | _, _ =>
        window_start (state (S k)) = window_start (state k) /\
        passes (state (S k)) = passes (state k)
    end.
Proof.
  intros start_time end_dt n state.
  split; [intros k; apply turns_spec |].
  split; [reflexivity |].
  split; [apply calculate_passes_eq |].
  intros k t. subst state.
  pose proof (scan_state_succ self start_time k) as Hs.
  destruct (scan_turns_inv self start_time k) as (_ & Hcur & Hwin & _ & _).
  change t with (tick start_time k).
  split; [exact Hcur |]. split; [exact Hs |].
  rewrite scan_body_eq, Hcur in Hs.
  change (Qle_bool (distance_km (altaz self (tick start_time k))) (max_distance_km self))
    with (in_range self (tick start_time k)).
  destruct (in_range self (tick start_time k)).
  - injection Hs as <-. cbn [in_window window_start passes].
    split; [reflexivity |].
    destruct (in_window (scan_state self start_time k)); split; reflexivity.
  - destruct (in_window (scan_state self start_time k)) eqn:Ew.
    + destruct (Hwin eq_refl) as (j & Hj & Hws & _). rewrite Hws in Hs.
      assert (Hle : tick start_time j <= tick start_time k).
      { pose proof (@tick_lt start_time j k Hj). rewrite step_value in *. lia. }
      destruct (@refine_returns self _ _ Hle) as (r & Hr).
      rewrite Hr in Hs. injection Hs as <-. cbn [in_window window_start passes].
      split; [reflexivity |].
      exists (tick start_time j), r.
      split; [exact Hws |]. split; [exact Hr |]. split; [reflexivity |].
      now rewrite Hws.
    + injection Hs as <-. cbn [in_window window_start passes].
      split; [reflexivity |]. split; reflexivity.
Qed.

(** C8: if the state after the last turn is still in a window, then
    that window started at a tick of the scan and every tick from there
    to the end of the horizon is in range; [calculate_passes] returns
    the passes of that state, which are the passes the loop had when the
    window opened and also the passes of a scan whose horizon ends at
    the window start; every one of them ends before the window starts,
    so none is a refinement of the open window. *)
Theorem trailing_window_discarded
    (self : ISSPassPredictor) (years : Q) (w : World) :
  let start_time := ts_now w in
  let end_dt := start_time + timedelta_days (365 * years) in
  let n := turns start_time end_dt in
  let final := scan_state self start_time n in
  in_window final = true ->
  exists j ws,
    (j < n)%nat /\ ws = tick start_time j /\
    window_start final = Some ws /\
    (forall i, (j <= i < n)%nat -> in_range self (tick start_time i) = true) /\
    calculate_passes self years w = Returned (passes final) /\
    passes final = passes (scan_state self start_time j) /\
    (exists st, scan self start_time ws = Returned st /\ passes st = passes final) /\
    Forall (fun p => end_ p < ws /\ start p <> ws) (passes final).
Proof.
  intros start_time end_dt n final Hopen.
  destruct (scan_turns_inv self start_time n) as (_ & _ & Hwin & Hclosed & _).
  destruct (Hwin Hopen) as (j & Hj & Hws & Hall & Hends).
  assert (Hsame : passes final = passes (scan_state self start_time j))
    by (apply passes_unchanged_in_range; [lia | exact Hall]).
  assert (Hturns : turns start_time (tick start_time j) = j).
  { unfold turns, tick. rewrite step_value.
    replace (start_time + Z.of_nat j * 60000000 - start_time + 60000000 - 1)
      with (59999999 + Z.of_nat j * 60000000) by lia.
    rewrite Z.div_add by lia. change (59999999 / 60000000) with 0. lia. }
  exists j, (tick start_time j).
  split; [exact Hj |]. split; [reflexivity |]. split; [exact Hws |].
  split; [exact Hall |]. split; [apply calculate_passes_eq |].
  split; [exact Hsame |]. split.
  - eexists. split; [apply scan_eq |]. now rewrite Hturns.
  - rewrite Forall_forall in *. intros p Hp.
    specialize (Hends p Hp). rewrite step_value in Hends.
    destruct (closed_window_fields (Hclosed p Hp)) as (a & b & Hab & _ & Hsp & Hep & _).
    pose proof (@tick_lt start_time a b Hab) as Hlt. rewrite step_value in Hlt.
    rewrite Hsp, Hep in *. split; lia.
Qed.

(** A range that comes under the threshold at 120 s and stays there:
    the window is open when the horizon ends, and nothing is emitted. *)
Lemma trailing_window_discarded_witness :
  in_window (scan_state (predictor_of late_range) (ts_now at_origin)
               (turns (ts_now at_origin)
                  (ts_now at_origin + timedelta_days (365 * short_years)))) = true /\
  calculate_passes (predictor_of late_range) short_years at_origin = Returned [].
Proof.
  assert (H : in_window (scan_state (predictor_of late_range) (ts_now at_origin)
               (turns (ts_now at_origin)
                  (ts_now at_origin + timedelta_days (365 * short_years)))) = true)
    by (vm_compute; reflexivity).
  split; [exact H |].
  destruct (@trailing_window_discarded (predictor_of late_range) short_years at_origin H)
    as (j & ws & _ & _ & _ & _ & Hret & _).
  rewrite Hret. vm_compute. reflexivity.
Defined.

(** *** Runs on the synthetic propagators *)

(** The range [500 + 5 |t - 300 s|] against the threshold of 1000 km:
    one pass, closest at 300 s with 500 km, in range for the 201 grid
    instants from 200 s to 400 s. *)
Example vee_range_one_pass :
  exists p,
    calculate_passes (predictor_of vee_range) short_years at_origin = Returned [p] /\
    start p = sec 240 /\ end_ p = sec 420 /\
    closest_time p = sec 300 /\
    (min_distance p == 500)%Q /\
    (duration p == 201 # 60)%Q /\
    reliability p = Accuracy.EXCELLENT.
Proof.
  eexists. split; [vm_compute; reflexivity |].
  repeat split; reflexivity.
Qed.

(** A range that never comes under the threshold: the empty list, not a
    failure. *)
Example far_range_no_pass :
  calculate_passes (predictor_of far_range) short_years at_origin = Returned [].
Proof. vm_compute. reflexivity. Qed.

(** A range that is always under the threshold: the only window never
    closes, and the list is empty too. *)
Example near_range_no_pass :
  calculate_passes (predictor_of near_range) short_years at_origin = Returned [].
Proof. vm_compute. reflexivity. Qed.

(** An empty grid: a window that ends more than two minutes before it
    starts makes [refine_pass_data] raise. *)
Example refine_pass_data_raises_on_empty_grid :
  refine_pass_data (predictor_of vee_range) (sec 300) (sec 100) = Raised.
Proof. vm_compute. reflexivity. Qed.

End SearchProps.

(* ================================================================== *)
(** ** Properties of the accuracy model *)
(* ================================================================== *)

Module AccuracyProps.

Import Accuracy QOrder.
Local Open Scope Q_scope.

(** Case analysis on the guards of the chain, leaving the order facts of
    the selected branch in the context. *)
Ltac chain d :=
  repeat match goal with
  | |- context [Qle_bool d ?c] =>
      let E := fresh "G" in
      destruct (Qle_bool d c) eqn:E;
      [ apply Qle_bool_true_le in E | apply Qle_bool_false_lt in E ]
  end.

(** Linear arithmetic over [Q] once the divisions by literals are turned
    into multiplications. *)
Ltac qlinear := unfold Qdiv in *; cbn [Qinv Qnum Qden] in *; lra.

Lemma estimate_accuracy_branch (d : Q) :
  estimate_accuracy d = (branch_formula (branch_of d) d, branch_of d).
Proof.
  unfold estimate_accuracy, branch_of.
  repeat match goal with
  | |- context [Qle_bool d ?c] => destruct (Qle_bool d c)
  end; reflexivity.
Qed.

(** The error never grows faster than 20/3 km per day and never shrinks:
    both bounds in one statement, for two ordered arguments. *)
Lemma error_of_slope (a b : Q) :
  a <= b -> error_of a <= error_of b /\ error_of b - error_of a <= (20 # 3) * (b - a).
Proof.
  intros Hab. unfold error_of, estimate_accuracy.
  chain a; chain b; cbn [fst]; split; qlinear.
Qed.

(** The guards select [EXCELLENT] for every argument up to 3, the
    negative ones included. *)
Lemma estimate_accuracy_first_branch (d : Q) :
  d <= 3 -> estimate_accuracy d = (1 + (d / 3) * 4, EXCELLENT).
Proof.
  intros H. unfold estimate_accuracy.
  now rewrite (Qle_Qle_bool_true H).
Qed.

(** C4: for every [d], [estimate_accuracy d] is the pair of the table:
    [1 + (d/3)*4] and EXCELLENT for [d <= 3]; [5 + ((d-3)/4)*15] and
    VERY GOOD for [3 < d <= 7]; [20 + ((d-7)/23)*80] and GOOD for
    [7 < d <= 30]; [100 + ((d-30)/60)*400] and MODERATE for
    [30 < d <= 90]; [500 + ((d-90)/90)*500] and POOR for [90 < d <= 180];
    [1000*(1 + (d-180)/180)] and VERY POOR for [180 < d]. *)
Theorem estimate_accuracy_six_tiers (d : Q) :
  (d <= 3 ->
     estimate_accuracy d = (1 + (d / 3) * 4, EXCELLENT)) /\
  (3 < d -> d <= 7 ->
     estimate_accuracy d = (5 + ((d - 3) / 4) * 15, VERY_GOOD)) /\
  (7 < d -> d <= 30 ->
     estimate_accuracy d = (20 + ((d - 7) / 23) * 80, GOOD)) /\
  (30 < d -> d <= 90 ->
     estimate_accuracy d = (100 + ((d - 30) / 60) * 400, MODERATE)) /\
  (90 < d -> d <= 180 ->
     estimate_accuracy d = (500 + ((d - 90) / 90) * 500, POOR)) /\
  (180 < d ->
     estimate_accuracy d = (1000 * (1 + (d - 180) / 180), VERY_POOR)).
Proof.
  unfold estimate_accuracy.
  repeat split; intros; chain d; try reflexivity; exfalso; lra.
Qed.

(** The table read at one argument of each tier. *)
Lemma estimate_accuracy_six_tiers_witness :
  estimate_accuracy 2 = (1 + (2 / 3) * 4, EXCELLENT) /\
  estimate_accuracy 5 = (5 + ((5 - 3) / 4) * 15, VERY_GOOD) /\
  estimate_accuracy 10 = (20 + ((10 - 7) / 23) * 80, GOOD) /\
  estimate_accuracy 60 = (100 + ((60 - 30) / 60) * 400, MODERATE) /\
  estimate_accuracy 100 = (500 + ((100 - 90) / 90) * 500, POOR) /\
  estimate_accuracy 365 = (1000 * (1 + (365 - 180) / 180), VERY_POOR).
Proof.
  split; [| split; [| split; [| split; [| split]]]].
  - apply (proj1 (estimate_accuracy_six_tiers 2)). discriminate.
  - apply (proj1 (proj2 (estimate_accuracy_six_tiers 5))); [reflexivity | discriminate].
  - apply (proj1 (proj2 (proj2 (estimate_accuracy_six_tiers 10))));
      [reflexivity | discriminate].
  - apply (proj1 (proj2 (proj2 (proj2 (estimate_accuracy_six_tiers 60)))));
      [reflexivity | discriminate].
  - apply (proj1 (proj2 (proj2 (proj2 (proj2 (estimate_accuracy_six_tiers 100))))));
      [reflexivity | discriminate].
  - apply (proj2 (proj2 (proj2 (proj2 (proj2 (estimate_accuracy_six_tiers 365)))))).
    reflexivity.
Defined.

(** C5: at each of the five breakpoints 3, 7, 30, 90 and 180 the formula
    of the branch below and the formula of the branch above give the same
    value (5, 20, 100, 500 and 1000), which is the value
    [estimate_accuracy] returns there; the error is non-decreasing over
    the non-negative arguments, and between two arguments it grows by at
    most 20/3 km per day, so it has no jump anywhere. *)
Theorem error_continuous_and_monotone :
  (branch_formula EXCELLENT 3 == 5 /\ branch_formula VERY_GOOD 3 == 5 /\
   error_of 3 == 5) /\
  (branch_formula VERY_GOOD 7 == 20 /\ branch_formula GOOD 7 == 20 /\
   error_of 7 == 20) /\
  (branch_formula GOOD 30 == 100 /\ branch_formula MODERATE 30 == 100 /\
   error_of 30 == 100) /\
  (branch_formula MODERATE 90 == 500 /\ branch_formula POOR 90 == 500 /\
   error_of 90 == 500) /\
  (branch_formula POOR 180 == 1000 /\ branch_formula VERY_POOR 180 == 1000 /\
   error_of 180 == 1000) /\
  (forall a b : Q, 0 <= a -> a <= b -> error_of a <= error_of b) /\
  (forall a b : Q, a <= b -> error_of b - error_of a <= (20 # 3) * (b - a)).
Proof.
  repeat split; try reflexivity.
  - intros a b _ Hab. apply (error_of_slope Hab).
  - intros a b Hab. apply (error_of_slope Hab).
Qed.

(** The monotonicity and the slope bound read between day 2 and day 200. *)
Lemma error_continuous_and_monotone_witness :
  error_of 2 <= error_of 200 /\
  error_of 200 - error_of 2 <= (20 # 3) * (200 - 2).
Proof.
  split.
  - apply (proj1 (proj2 (proj2 (proj2 (proj2 (proj2
             error_continuous_and_monotone)))))); discriminate.
  - apply (proj2 (proj2 (proj2 (proj2 (proj2 (proj2
             error_continuous_and_monotone)))))); discriminate.
Defined.

(** C9: for every negative [d], [estimate_accuracy] returns (it is a
    total function) the first tier's formula [1 + (d/3)*4] evaluated at
    [d] itself, with the label EXCELLENT, and that error is below 1 km. *)
Theorem negative_days_first_tier (d : Q) :
  d < 0 ->
  estimate_accuracy d = (1 + (d / 3) * 4, EXCELLENT) /\
  error_of d < 1.
Proof.
  intros Hd.
  assert (H3 : d <= 3) by lra.
  unfold error_of. rewrite (estimate_accuracy_first_branch H3).
  split; [reflexivity | cbn [fst]; qlinear].
Qed.

(** One day before the epoch. *)
Lemma negative_days_first_tier_witness :
  estimate_accuracy (-1) = (1 + (-1 / 3) * 4, EXCELLENT) /\
  error_of (-1) < 1.
Proof. apply (@negative_days_first_tier (-1)). reflexivity. Defined.

(** C10: the error is not always positive.  For every [d <= -3/4] it is
    at most 0 while the label is still EXCELLENT; it is exactly 0 at
    [d = -3/4], negative below, and has no lower bound; and the error is
    at least 1 exactly when [d] is non-negative. *)
Theorem error_not_always_positive :
  (forall d : Q, d <= - (3 # 4) -> error_of d <= 0 /\ tier_of d = EXCELLENT) /\
  error_of (- (3 # 4)) == 0 /\
  (forall d : Q, d < - (3 # 4) -> error_of d < 0) /\
  (forall bound : Q, exists d : Q, d <= - (3 # 4) /\ error_of d < bound) /\
  (forall d : Q, 1 <= error_of d <-> 0 <= d).
Proof.
  split; [| split; [| split; [| split]]].
  - intros d Hd. assert (H3 : d <= 3) by lra.
    unfold error_of, tier_of. rewrite (estimate_accuracy_first_branch H3).
    cbn [fst snd]. split; [qlinear | reflexivity].
  - reflexivity.
  - intros d Hd. assert (H3 : d <= 3) by lra.
    unfold error_of. rewrite (estimate_accuracy_first_branch H3).
    cbn [fst]. qlinear.
  - intros bound.
    destruct (Qlt_le_dec 0 bound) as [Hpos | Hneg].
    + exists (-1). split; [discriminate |].
      apply Qlt_trans with 0; [reflexivity | exact Hpos].
    + exists ((3 # 4) * (bound - 1) - 1).
      assert (H3 : (3 # 4) * (bound - 1) - 1 <= 3) by lra.
      split; [lra |].
      unfold error_of. rewrite (estimate_accuracy_first_branch H3).
      cbn [fst]. qlinear.
  - intros d. unfold error_of, estimate_accuracy.
    chain d; cbn [fst]; split; intros; qlinear.
Qed.

(** The first part read three days before the epoch. *)
Lemma error_not_always_positive_witness :
  error_of (-3) <= 0 /\ tier_of (-3) = EXCELLENT.
Proof.
  apply (proj1 error_not_always_positive (-3)). discriminate.
Defined.

End AccuracyProps.

(* ================================================================== *)
(** ** Further properties of the accuracy model *)
(* ================================================================== *)

Module AccuracyExtras.

Import Accuracy Runs QOrder AccuracyProps.
Local Open Scope Q_scope.

(** The label never moves back along the chain as the days grow. *)
Lemma tier_rank_monotone (a b : Q) :
  a <= b -> (tier_rank (tier_of a) <= tier_rank (tier_of b))%nat.
Proof.
  intros Hab. unfold tier_of, estimate_accuracy.
  chain a; chain b; cbn [snd tier_rank]; try lia; exfalso; lra.
Qed.

(** X12: the error and the label agree with the ranges the report prints
    for the labels: EXCELLENT exactly when the error is at most 5 km,
    VERY GOOD when it is in (5, 20], GOOD in (20, 100], MODERATE in
    (100, 500], POOR in (500, 1000] and VERY POOR above 1000 km. *)
Theorem label_matches_error_band (d : Q) :
  (tier_of d = EXCELLENT <-> error_of d <= 5) /\
  (tier_of d = VERY_GOOD <-> 5 < error_of d /\ error_of d <= 20) /\
  (tier_of d = GOOD <-> 20 < error_of d /\ error_of d <= 100) /\
  (tier_of d = MODERATE <-> 100 < error_of d /\ error_of d <= 500) /\
  (tier_of d = POOR <-> 500 < error_of d /\ error_of d <= 1000) /\
  (tier_of d = VERY_POOR <-> 1000 < error_of d).
Proof.
  unfold tier_of, error_of, estimate_accuracy.
  chain d; cbn [fst snd];
    repeat match goal with |- _ /\ _ => split end;
    (split;
     [ intros Ht; try discriminate Ht;
       match goal with |- _ /\ _ => split | _ => idtac end; qlinear
     | intros He; try reflexivity; exfalso;
       match type of He with _ /\ _ => destruct He | _ => idtac end; qlinear ]).
Qed.

(** X13: the error grows strictly with the days, over negative days too,
    so two different ages never get the same error, and the label never
    improves with age. *)
Theorem error_strictly_increasing (a b : Q) :
  a < b ->
  error_of a < error_of b /\
  (tier_rank (tier_of a) <= tier_rank (tier_of b))%nat.
Proof.
  intros Hab. split.
  - unfold error_of, estimate_accuracy.
    chain a; chain b; cbn [fst]; qlinear.
  - apply tier_rank_monotone. lra.
Qed.

(** Day 2 against day 200. *)
Lemma error_strictly_increasing_witness :
  error_of 2 < error_of 200 /\
  (tier_rank (tier_of 2) <= tier_rank (tier_of 200))%nat.
Proof. apply (@error_strictly_increasing 2 200). reflexivity. Defined.

End AccuracyExtras.

(* ================================================================== *)
(** ** Runs of in-range ticks *)
(* ================================================================== *)

Module RunProps.

Import Clock Numpy Predictor Scenarios Runs QOrder NumpyProps RefineProps ScanProps.
Local Open Scope Z_scope.

Lemma tick_le (start_time : datetime) (a b : nat) :
  (a <= b)%nat -> tick start_time a <= tick start_time b.
Proof. unfold tick. rewrite step_value. lia. Qed.

(** The window start is an instant of the padded grid. *)
Lemma fine_grid_start (s e : datetime) :
  s <= e -> nth 60 (fine_grid s e) 0 = s.
Proof.
  intros Hse. destruct (@fine_len_bounds s e Hse) as (Hn & _).
  rewrite fine_grid_nth by lia. unfold fine_instant. lia.
Qed.

(** A window whose first instant is in range is never refined to
    [None]. *)
Lemma refine_in_range_some (self : ISSPassPredictor) (s e : datetime) :
  s <= e -> in_range self s = true ->
  exists p, refine_pass_data self s e = Returned (Some p).
Proof.
  intros Hse Hin.
  destruct (@refine_pass_data_char self s e (fine_grid_nonempty Hse))
    as (k & m & (Hk & Hmin & _) & _ & ->).
  destruct (@fine_len_bounds s e Hse) as (Hn & _).
  rewrite fine_grid_length in Hmin.
  specialize (Hmin 60%nat ltac:(lia)). rewrite (fine_grid_start Hse) in Hmin.
  apply Qle_bool_iff in Hin. fold (range_at self s) in Hin.
  unfold refined.
  replace (Qlt_bool _ _) with false; [eauto |].
  symmetry. unfold Qlt_bool. apply negb_false_iff, Qle_bool_iff. lra.
Qed.

(** A run that is open at [k] has one possible first tick. *)
Lemma open_run_unique (self : ISSPassPredictor) (start_time : datetime)
    (j j' k : nat) :
  open_run self start_time j k -> open_run self start_time j' k -> j = j'.
Proof.
  intros (Hj & Hin & Hleft) (Hj' & Hin' & Hleft').
  destruct (Nat.lt_trichotomy j j') as [Hlt | [Heq | Hgt]]; [| exact Heq |]; exfalso.
  - destruct Hleft' as [-> | (i & -> & Hout)]; [lia |].
    rewrite Hin in Hout by lia. discriminate.
  - destruct Hleft as [-> | (i & -> & Hout)]; [lia |].
    rewrite Hin' in Hout by lia. discriminate.
Qed.

Lemma run_inv_init (self : ISSPassPredictor) (start_time : datetime) :
  run_inv self start_time 0 (scan_init start_time).
Proof.
  split; [cbn; discriminate |]. split; [now left |]. split; [| cbn; lia].
  intros p. split; [intros [] | intros (j & b & Hb & _); lia].
Qed.

(** One turn of the loop keeps what the state knows about the runs. *)
Lemma run_inv_step (self : ISSPassPredictor) (start_time : datetime) (k : nat) :
  run_inv self start_time k (scan_state self start_time k) ->
  run_inv self start_time (S k) (scan_state self start_time (S k)).
Proof.
  intros (Hopen & Hshut & Hpasses & Hcount). unfold run_inv.
  pose proof (scan_state_succ self start_time k) as Hs.
  destruct (scan_turns_inv self start_time k) as (_ & Hcur & _).
  rewrite scan_body_eq, Hcur in Hs.
  set (st := scan_state self start_time k) in *.
  destruct (in_range self (tick start_time k)) eqn:Er.
  - injection Hs as <-. cbn [in_window window_start passes].
    split; [intros _ | split; [discriminate | split]].
    + destruct (in_window st) eqn:Ew.
      * destruct (Hopen eq_refl) as (j & Hws & Hj & Hin & Hleft).
        exists j. split; [exact Hws |]. split; [lia |]. split; [| exact Hleft].
        intros i Hi. destruct (Nat.eq_dec i k) as [-> | Hne];
          [exact Er | apply Hin; lia].
      * exists k. split; [reflexivity |]. split; [lia |]. split.
        -- intros i Hi. now replace i with k by lia.
        -- destruct (Hshut eq_refl) as [-> | Hk]; [now left | now right].
    + intros p. rewrite Hpasses. split; intros (j & b & Hb & Hrun & Hr).
      * exists j, b. split; [lia | now split].
      * exists j, b. split; [| now split].
        destruct (Nat.eq_dec b k) as [-> | Hne]; [| lia].
        destruct Hrun as (_ & Hout). congruence.
    + destruct (in_window st); lia.
  - destruct (in_window st) eqn:Ew.
    + destruct (Hopen eq_refl) as (j & Hws & Hrun).
      pose proof Hrun as (Hj & Hin & Hleft).
      rewrite Hws in Hs.
      assert (Hle : tick start_time j <= tick start_time k) by (apply tick_le; lia).
      destruct (@refine_in_range_some self _ _ Hle (Hin j ltac:(lia))) as (p0 & Hr).
      rewrite Hr in Hs. injection Hs as <-.
      cbn [in_window window_start passes emitted bind].
      split; [discriminate |]. split; [intros _; right; now exists k |]. split.
      * intros p. rewrite in_app_iff, Hpasses. split.
        -- intros [(j1 & b & Hb & Hrun1 & Hr1) | [<- | []]].
           ++ exists j1, b. split; [lia | now split].
           ++ exists j, k. split; [lia |]. split; [now split | exact Hr].
        -- intros (j1 & b & Hb & Hrun1 & Hr1).
           destruct (Nat.eq_dec b k) as [-> | Hne].
           ++ right. left. destruct Hrun1 as (Hopen1 & _).
              rewrite (open_run_unique Hopen1 Hrun) in Hr1. congruence.
           ++ left. exists j1, b. split; [lia | now split].
      * rewrite length_app. cbn [length]. lia.
    + injection Hs as <-. cbn [in_window window_start passes].
      split; [discriminate |]. split; [intros _; right; now exists k |]. split.
      * intros p. rewrite Hpasses. split; intros (j & b & Hb & Hrun & Hr).
        -- exists j, b. split; [lia | now split].
        -- exists j, b. split; [| now split].
           destruct (Nat.eq_dec b k) as [-> | Hne]; [| lia].
           destruct Hrun as ((Hj & Hin & _) & _).
           destruct (Hshut eq_refl) as [-> | (k' & -> & Hout)]; [lia |].
           rewrite Hin in Hout by lia. discriminate.
      * lia.
Qed.

Lemma run_inv_holds (self : ISSPassPredictor) (start_time : datetime) (k : nat) :
  run_inv self start_time k (scan_state self start_time k).
Proof.
  induction k as [| k IH]; [apply run_inv_init | now apply run_inv_step].
Qed.


(** *** Consequences for the list of passes *)

(** The passes of the state after [k] turns, one by one. *)
Lemma passes_fields (self : ISSPassPredictor) (start_time : datetime)
    (k : nat) (p : Pass) :
  In p (passes (scan_state self start_time k)) ->
  exists j b i m,
    (b < k)%nat /\ closed_run self start_time j b /\
    first_argmin (range_at self)
      (fine_grid (tick start_time j) (tick start_time b)) i /\
    (range_at self (fine_instant (tick start_time j) i) <= max_distance_km self)%Q /\
    p = {| start := tick start_time j;
           end_ := tick start_time b;
           closest_time := fine_instant (tick start_time j) i;
           min_distance := range_at self (fine_instant (tick start_time j) i);
           max_altitude := m;
           duration := (inject_Z (in_range_count self (tick start_time j)
                                    (tick start_time b)) / 60)%Q;
           error_km := fst (Accuracy.estimate_accuracy
                              (days_from self (fine_instant (tick start_time j) i)));
           reliability := snd (Accuracy.estimate_accuracy
                              (days_from self (fine_instant (tick start_time j) i))) |}.
Proof.
  intros Hp.
  destruct (run_inv_holds self start_time k) as (_ & _ & Hpasses & _).
  apply Hpasses in Hp. destruct Hp as (j & b & Hb & Hrun & Hr).
  assert (Hle : tick start_time j <= tick start_time b).
  { apply tick_le. destruct Hrun as ((Hj & _) & _). lia. }
  destruct (@refine_some self _ _ p Hle Hr) as (i & m & Hi & _ & Hmax & Hrec).
  exists j, b, i, m. repeat split; try assumption; apply Hrun || apply Hi.
Qed.

Lemma Forall_passes (self : ISSPassPredictor) (start_time : datetime)
    (k : nat) (P : Pass -> Prop) :
  (forall p, In p (passes (scan_state self start_time k)) -> P p) ->
  Forall P (passes (scan_state self start_time k)).
Proof. intros H. now apply Forall_forall. Qed.

(** The passes only grow, at their end, from one turn to a later one. *)
Lemma passes_prefix (self : ISSPassPredictor) (start_time : datetime) (k m : nat) :
  exists more,
    passes (scan_state self start_time (k + m))
    = passes (scan_state self start_time k) ++ more.
Proof.
  induction m as [| m (more & IH)].
  - exists []. now rewrite Nat.add_0_r, app_nil_r.
  - replace (k + S m)%nat with (S (k + m)) by lia.
    pose proof (scan_state_succ self start_time (k + m)) as Hs.
    rewrite scan_body_eq in Hs.
    destruct (in_range self _); [injection Hs as <-; now exists more |].
    destruct (in_window _); [| injection Hs as <-; now exists more].
    destruct (window_start _) as [ws |]; [| discriminate].
    destruct (refine_pass_data self ws _) as [r | |]; cbn [bind] in Hs;
      [| discriminate ..].
    injection Hs as <-. cbn [passes]. exists (more ++ emitted r).
    now rewrite IH, app_assoc.
Qed.

Lemma turns_monotone (start_time end1 end2 : datetime) :
  end1 <= end2 -> (turns start_time end1 <= turns start_time end2)%nat.
Proof.
  intros Hle. apply Nat.le_ngt. intros Hlt.
  apply (proj1 (turns_spec start_time end1 _)) in Hlt.
  assert (Hn : ~ (turns start_time end2 < turns start_time end2)%nat) by lia.
  apply Hn, turns_spec. lia.
Qed.

(** *** Rounding *)

Lemma round_half_even_bounds (x : Q) :
  Qfloor x <= round_half_even x <= Qfloor x + 1.
Proof.
  unfold round_half_even.
  destruct (Qcompare _ _); [destruct (Z.even _) | |]; lia.
Qed.

Lemma round_half_even_monotone (x y : Q) :
  (x <= y)%Q -> round_half_even x <= round_half_even y.
Proof.
  intros Hxy. pose proof (Qfloor_resp_le _ _ Hxy) as Hf.
  destruct (Z.eq_dec (Qfloor x) (Qfloor y)) as [Heq | Hne].
  - unfold round_half_even. rewrite <- Heq.
    destruct (Qcompare (x - inject_Z (Qfloor x)) (1 # 2)) eqn:Ex;
      destruct (Qcompare (y - inject_Z (Qfloor x)) (1 # 2)) eqn:Ey;
      try (destruct (Z.even (Qfloor x))); try lia; exfalso;
      first [apply (proj2 (Qeq_alt _ _)) in Ex | apply (proj2 (Qlt_alt _ _)) in Ex
            | apply (proj2 (Qgt_alt _ _)) in Ex];
      first [apply (proj2 (Qeq_alt _ _)) in Ey | apply (proj2 (Qlt_alt _ _)) in Ey
            | apply (proj2 (Qgt_alt _ _)) in Ey];
      lra.
  - pose proof (round_half_even_bounds x). pose proof (round_half_even_bounds y). lia.
Qed.

Lemma round_half_even_integer (z : Z) : round_half_even (inject_Z z) = z.
Proof.
  unfold round_half_even. rewrite Qfloor_Z.
  replace (Qcompare _ _) with Lt; [reflexivity |].
  symmetry. apply (proj1 (Qlt_alt _ _)). lra.
Qed.

Lemma timedelta_days_monotone (x y : Q) :
  (x <= y)%Q -> timedelta_days x <= timedelta_days y.
Proof. intros Hxy. apply round_half_even_monotone. lra. Qed.

End RunProps.

(* ================================================================== *)
(** ** Further properties of the search *)
(* ================================================================== *)

Module SearchExtras.

Import Clock Numpy Predictor Scenarios Runs QOrder NumpyProps RefineProps ScanProps.
Import SearchProps AccuracyProps AccuracyExtras RunProps.
Local Open Scope Z_scope.

Lemma filter_split_length {A : Type} (f : A -> bool) (l : list A) :
  (length (filter f l) + length (filter (fun x => negb (f x)) l) = length l)%nat.
Proof.
  induction l as [| x l IH]; [reflexivity |].
  cbn [filter]. destruct (f x); cbn [negb length]; lia.
Qed.

Lemma NoDup_map_injective {A B : Type} (g : A -> B) (l : list A) :
  (forall x y, g x = g y -> x = y) -> NoDup l -> NoDup (map g l).
Proof.
  intros Hg. induction 1 as [| x l Hx Hl IH]; cbn [map]; constructor.
  - intros Hin. apply in_map_iff in Hin. destruct Hin as (y & Hy & Hin).
    apply Hg in Hy. now subst.
  - exact IH.
Qed.

(** A coarse tick of the window, its closing tick included, is an
    instant of the padded grid. *)
Lemma tick_in_fine_grid (start_time : datetime) (j b i : nat) :
  (j <= i <= b)%nat ->
  In (tick start_time i) (fine_grid (tick start_time j) (tick start_time b)).
Proof.
  intros Hi.
  assert (Hle : tick start_time j <= tick start_time b) by (apply tick_le; lia).
  destruct (@fine_len_bounds _ _ Hle) as (_ & _ & Hhi).
  rewrite tick_diff in Hhi.
  apply fine_grid_In. exists (60 + 60 * (i - j))%nat. split.
  - apply Nat2Z.inj_lt. lia.
  - unfold fine_instant, tick. rewrite step_value. lia.
Qed.

(** X1: every pass in the list comes from a maximal run of in-range
    ticks closed by an out-of-range tick before the end of the
    horizon. *)
Theorem emitted_windows_are_closed_runs
    (self : ISSPassPredictor) (years : Q) (w : World) :
  let start_time := ts_now w in
  let n := turns start_time (start_time + timedelta_days (365 * years)) in
  exists ps,
    calculate_passes self years w = Returned ps /\
    Forall (fun p =>
      exists j b, (b < n)%nat /\ closed_run self start_time j b /\
        start p = tick start_time j /\ end_ p = tick start_time b) ps.
Proof.
  intros start_time n. eexists. split; [apply calculate_passes_eq |].
  apply Forall_passes. intros p Hp.
  destruct (passes_fields _ _ _ _ Hp) as (j & b & i & m & Hb & Hrun & _ & _ & ->).
  exists j, b. repeat split; try assumption; apply Hrun.
Qed.

(** X2: every maximal run of in-range ticks that an out-of-range tick
    closes before the end of the horizon gives a pass of the list: the
    [return None] of [refine_pass_data] is never taken for it. *)
Theorem closed_runs_are_emitted
    (self : ISSPassPredictor) (years : Q) (w : World) (j b : nat) :
  let start_time := ts_now w in
  let n := turns start_time (start_time + timedelta_days (365 * years)) in
  (b < n)%nat ->
  closed_run self start_time j b ->
  exists ps p,
    calculate_passes self years w = Returned ps /\
    In p ps /\
    start p = tick start_time j /\ end_ p = tick start_time b /\
    refine_pass_data self (tick start_time j) (tick start_time b) = Returned (Some p).
Proof.
  intros start_time n Hb Hrun.
  pose proof Hrun as ((Hj & Hin & _) & _).
  assert (Hle : tick start_time j <= tick start_time b) by (apply tick_le; lia).
  destruct (@refine_in_range_some self _ _ Hle (Hin j ltac:(lia))) as (p & Hr).
  eexists. exists p. split; [apply calculate_passes_eq |].
  destruct (run_inv_holds self start_time n) as (_ & _ & Hpasses & _).
  split; [apply Hpasses; exists j, b; auto |].
  destruct (@refine_some self _ _ p Hle Hr) as (i & m & _ & _ & _ & Hrec).
  rewrite Hrec at 1 2. cbn [start end_]. auto.
Qed.

(** The window from 240 s to 420 s of the range [500 + 5 |t - 300 s|]. *)
Lemma closed_runs_are_emitted_witness :
  exists ps p,
    calculate_passes (predictor_of vee_range) short_years at_origin = Returned ps /\
    In p ps /\
    start p = sec 240 /\ end_ p = sec 420.
Proof.
  destruct (@closed_runs_are_emitted (predictor_of vee_range) short_years at_origin
              4%nat 7%nat) as (ps & p & Hret & Hin & Hs & He & _).
  - vm_compute. lia.
  - split; [split; [lia | split] |].
    + intros i Hi.
      assert (Hc : i = 4%nat \/ i = 5%nat \/ i = 6%nat) by lia.
      destruct Hc as [-> | [-> | ->]]; reflexivity.
    + right. exists 3%nat. split; reflexivity.
    + reflexivity.
  - exists ps, p. repeat split; assumption.
Defined.

(** X3: in every pass of the list, [min_distance] is the range at
    [closest_time], it is within [max_distance_km], and it is at most
    the range at every coarse tick of the window, the closing tick
    included. *)
Theorem emitted_min_distance_bounds
    (self : ISSPassPredictor) (years : Q) (w : World) :
  exists ps,
    calculate_passes self years w = Returned ps /\
    Forall (fun p =>
      min_distance p = range_at self (closest_time p) /\
      (min_distance p <= max_distance_km self)%Q /\
      forall c : nat,
        start p + Z.of_nat c * step <= end_ p ->
        (min_distance p <= range_at self (start p + Z.of_nat c * step)%Z)%Q) ps.
Proof.
  eexists. split; [apply calculate_passes_eq |].
  apply Forall_passes. intros p Hp.
  destruct (passes_fields _ _ _ _ Hp)
    as (j & b & i & m & Hb & Hrun & (Hi & Hmin & _) & Hmax & ->).
  cbn [min_distance closest_time start end_].
  split; [reflexivity |]. split; [exact Hmax |].
  intros c Hc.
  assert (Hjc : (j <= j + c <= b)%nat).
  { unfold tick in Hc. rewrite step_value in Hc. lia. }
  replace (tick (ts_now w) j + Z.of_nat c * step) with (tick (ts_now w) (j + c))
    by (unfold tick; lia).
  pose proof (@tick_in_fine_grid (ts_now w) j b (j + c) Hjc) as Hin.
  apply In_nth with (d := 0) in Hin. destruct Hin as (x & Hx & Hnth).
  specialize (Hmin x Hx). rewrite Hnth in Hmin.
  rewrite fine_grid_length in Hi. rewrite (fine_grid_nth _ _ Hi) in Hmin.
  exact Hmin.
Qed.

(** X4: in every pass of the list the window lies inside the horizon,
    and [closest_time] is a whole number of seconds after one minute
    before [start] and comes before one minute after [end]; it can
    precede the first instant of the scan by up to a minute. *)
Theorem emitted_closest_time_bounds
    (self : ISSPassPredictor) (years : Q) (w : World) :
  let start_time := ts_now w in
  let end_dt := start_time + timedelta_days (365 * years) in
  exists ps,
    calculate_passes self years w = Returned ps /\
    Forall (fun p =>
      start_time <= start p /\ start p < end_ p /\ end_ p < end_dt /\
      start p - timedelta_minutes 1 <= closest_time p /\
      closest_time p < end_ p + timedelta_minutes 1 /\
      exists i : nat,
        closest_time p = start p - timedelta_minutes 1 + Z.of_nat i * timedelta_seconds 1) ps.
Proof.
  intros start_time end_dt. subst start_time end_dt.
  eexists. split; [apply calculate_passes_eq |].
  apply Forall_passes. intros p Hp.
  destruct (passes_fields _ _ _ _ Hp)
    as (j & b & i & m & Hb & ((Hj & _) & _) & (Hi & _) & _ & ->).
  cbn [closest_time start end_].
  apply turns_spec in Hb. set (start_time := ts_now w) in *.
  assert (Hle : tick start_time j <= tick start_time b) by (apply tick_le; lia).
  destruct (@fine_len_bounds _ _ Hle) as (_ & Hlo & _).
  rewrite fine_grid_length in Hi.
  pose proof (@tick_lt start_time j b Hj) as Hlt. rewrite step_value in Hlt.
  unfold fine_instant, timedelta_minutes, timedelta_seconds.
  assert (start_time <= tick start_time j) by (unfold tick; rewrite step_value; lia).
  repeat split; try lia. exists i. lia.
Qed.

(** X5: the [duration] of every pass of the list, in seconds, is a count
    that is at least the number of coarse steps of the window and at
    most its number of seconds plus 119. *)
Theorem emitted_duration_bounds
    (self : ISSPassPredictor) (years : Q) (w : World) :
  exists ps,
    calculate_passes self years w = Returned ps /\
    Forall (fun p =>
      (inject_Z ((end_ p - start p) / step) <= duration p * 60)%Q /\
      (duration p * 60
       <= inject_Z ((end_ p - start p) / timedelta_seconds 1 + 119))%Q) ps.
Proof.
  eexists. split; [apply calculate_passes_eq |].
  apply Forall_passes. intros p Hp.
  destruct (passes_fields _ _ _ _ Hp)
    as (j & b & i & m & Hb & ((Hj & Hin & _) & Hout) & _ & _ & ->).
  cbn [duration start end_].
  set (start_time := ts_now w) in *.
  set (grid := fine_grid (tick start_time j) (tick start_time b)).
  assert (Hdur : ((inject_Z (in_range_count self (tick start_time j) (tick start_time b))
                   / 60) * 60
                  == inject_Z (Z.of_nat (length (filter (in_range self) grid))))%Q).
  { unfold in_range_count. fold grid. field. }
  rewrite Hdur, <- !Zle_Qle.
  assert (Hle : tick start_time j <= tick start_time b) by (apply tick_le; lia).
  destruct (@fine_len_bounds _ _ Hle) as (_ & Hlo & Hhi).
  rewrite tick_diff in *. rewrite step_value. unfold timedelta_seconds.
  replace ((Z.of_nat b - Z.of_nat j) * 60 * 1000000)
    with ((Z.of_nat b - Z.of_nat j) * 60000000) by lia.
  rewrite Z.div_mul by lia.
  replace ((Z.of_nat b - Z.of_nat j) * 60000000)
    with ((Z.of_nat b - Z.of_nat j) * 60 * (1 * 1000000)) by lia.
  rewrite Z.div_mul by lia.
  split.
  - (* the in-range ticks of the window are distinct instants of the grid *)
    set (ticks := map (fun c => tick start_time (j + c)) (seq 0 (b - j))).
    assert (Hnd : NoDup ticks).
    { apply NoDup_map_injective; [| apply seq_NoDup].
      intros x y Hxy. unfold tick in Hxy. rewrite step_value in Hxy. lia. }
    assert (Hincl : incl ticks (filter (in_range self) grid)).
    { intros t Ht. apply in_map_iff in Ht. destruct Ht as (c & <- & Hc).
      apply in_seq in Hc. apply filter_In. split.
      - apply tick_in_fine_grid. lia.
      - apply Hin. lia. }
    pose proof (NoDup_incl_length Hnd Hincl) as Hlen.
    unfold ticks in Hlen. rewrite length_map, length_seq in Hlen. lia.
  - (* the closing tick is an instant of the grid that is out of range *)
    pose proof (filter_split_length (in_range self) grid) as Hsplit.
    pose proof (fine_grid_length (tick start_time j) (tick start_time b)) as Hlen.
    fold grid in Hlen. rewrite Hlen in Hsplit.
    assert (Hend : In (tick start_time b)
                     (filter (fun t => negb (in_range self t)) grid)).
    { apply filter_In. split; [apply tick_in_fine_grid; lia | now rewrite Hout]. }
    destruct (filter (fun t => negb (in_range self t)) grid) as [| x l] eqn:E;
      [destruct Hend |].
    cbn [length] in Hsplit. lia.
Qed.

(** The grid is empty exactly when the padded interval is shorter than
    a second. *)
Lemma fine_len_zero (s e : datetime) :
  fine_len s e = 0%nat <-> e - s + 120000000 < 1000000.
Proof.
  unfold fine_len. set (x := e - s + 120000000).
  destruct (Z_lt_le_dec x 0) as [Hneg | Hpos].
  - replace x with (- (- x)) at 1 by lia. rewrite Z.quot_opp_l by lia.
    pose proof (Z.quot_pos (- x) 1000000 ltac:(lia) ltac:(lia)). split; lia.
  - rewrite Z.quot_div_nonneg by lia.
    assert (H := Z.div_mod x 1000000 ltac:(lia)).
    assert (H' := Z.mod_pos_bound x 1000000 ltac:(lia)).
    assert (0 <= x / 1000000) by (apply Z.div_pos; lia).
    split; intros; nia.
Qed.

(** X11: [refine_pass_data] raises exactly when its grid is empty, that
    is when the window ends more than 119 seconds before it starts;
    on every other window it returns. *)
Theorem refine_raises_iff_empty_grid
    (self : ISSPassPredictor) (s e : datetime) :
  (refine_pass_data self s e = Raised <-> e + timedelta_seconds 119 < s) /\
  (s <= e + timedelta_seconds 119 ->
   exists r, refine_pass_data self s e = Returned r).
Proof.
  unfold timedelta_seconds.
  destruct (Nat.eq_dec (fine_len s e) 0) as [Hzero | Hpos].
  - assert (Hlt : e - s + 120000000 < 1000000) by now apply fine_len_zero.
    assert (Hr : refine_pass_data self s e = Raised).
    { unfold refine_pass_data. rewrite times_list_fine_grid.
      unfold fine_grid. rewrite Hzero. reflexivity. }
    split; [split; [lia | intros _; exact Hr] | lia].
  - assert (Hge : ~ e - s + 120000000 < 1000000)
      by (intros H; now apply fine_len_zero in H).
    assert (Hne : fine_grid s e <> []).
    { intros Hnil. apply (f_equal (@length _)) in Hnil.
      rewrite fine_grid_length in Hnil. contradiction. }
    destruct (@refine_pass_data_char self s e Hne) as (k & m & _ & _ & Hr).
    assert (Hret : exists r, refine_pass_data self s e = Returned r).
    { rewrite Hr. unfold refined. destruct (Qlt_bool _ _); eauto. }
    split; [split; [| lia] | intros _; exact Hret].
    destruct Hret as (r & Hret). rewrite Hret. discriminate.
Qed.

(** A window handed over the wrong way round by two minutes, and one
    by a minute. *)
Lemma refine_raises_iff_empty_grid_witness :
  refine_pass_data (predictor_of vee_range) (sec 300) (sec 180) = Raised /\
  exists r, refine_pass_data (predictor_of vee_range) (sec 300) (sec 240) = Returned r.
Proof.
  split.
  - apply (proj1 (refine_raises_iff_empty_grid (predictor_of vee_range)
                    (sec 300) (sec 180))). reflexivity.
  - apply (proj2 (refine_raises_iff_empty_grid (predictor_of vee_range)
                    (sec 300) (sec 240))). discriminate.
Defined.

Lemma StronglySorted_impl_In {A : Type} (R R' : A -> A -> Prop) (l : list A) :
  (forall x y, In x l -> In y l -> R x y -> R' x y) ->
  StronglySorted R l -> StronglySorted R' l.
Proof.
  intros Himpl Hs. induction Hs as [| x l Hl IH Hx]; constructor.
  - apply IH. intros y z Hy Hz. apply Himpl; now right.
  - rewrite Forall_forall in *. intros y Hy.
    apply Himpl; [now left | now right | now apply Hx].
Qed.

Lemma days_from_monotone (self : ISSPassPredictor) (t1 t2 : datetime) :
  t1 <= t2 -> (days_from self t1 <= days_from self t2)%Q.
Proof.
  intros Ht. unfold days_from, total_seconds.
  assert (H : (inject_Z (t1 - tle_epoch self) <= inject_Z (t2 - tle_epoch self))%Q)
    by (rewrite <- Zle_Qle; lia).
  qlinear.
Qed.

(** The days since the epoch against a whole number of days. *)
Lemma days_from_le (self : ISSPassPredictor) (t : datetime) (c : Z) :
  (days_from self t <= inject_Z c)%Q <-> t - tle_epoch self <= c * 86400000000.
Proof.
  unfold days_from, total_seconds.
  rewrite (Zle_Qle (t - tle_epoch self)), inject_Z_mult.
  change (inject_Z 86400000000) with (86400000000 # 1)%Q.
  split; intros H; qlinear.
Qed.

(** X6: the error and the label of every pass of the list are those of
    [estimate_accuracy] at the days between the epoch and
    [closest_time], and along the list the error never decreases and
    the label never improves. *)
Theorem emitted_error_never_decreases
    (self : ISSPassPredictor) (years : Q) (w : World) :
  exists ps,
    calculate_passes self years w = Returned ps /\
    Forall (fun p =>
      (error_km p, reliability p)
      = Accuracy.estimate_accuracy (days_from self (closest_time p))) ps /\
    StronglySorted (fun p q =>
      (error_km p <= error_km q)%Q /\
      (tier_rank (reliability p) <= tier_rank (reliability q))%nat) ps.
Proof.
  eexists. split; [apply calculate_passes_eq |].
  set (n := turns _ _).
  assert (Hfields : forall p, In p (passes (scan_state self (ts_now w) n)) ->
            (error_km p, reliability p)
            = Accuracy.estimate_accuracy (days_from self (closest_time p))).
  { intros p Hp.
    destruct (passes_fields _ _ _ _ Hp) as (j & b & i & m & _ & _ & _ & _ & ->).
    cbn [error_km reliability closest_time]. now destruct (Accuracy.estimate_accuracy _). }
  split; [now apply Forall_passes |].
  destruct (scan_turns_inv self (ts_now w) n) as (_ & _ & _ & _ & Hsorted).
  eapply StronglySorted_impl_In; [| exact Hsorted].
  intros p q Hp Hq (_ & Hle & _).
  apply Hfields in Hp, Hq.
  apply (days_from_monotone self) in Hle.
  assert (Ep : error_km p = Accuracy.error_of (days_from self (closest_time p)))
    by (unfold Accuracy.error_of; now rewrite <- Hp).
  assert (Eq : error_km q = Accuracy.error_of (days_from self (closest_time q)))
    by (unfold Accuracy.error_of; now rewrite <- Hq).
  assert (Tp : reliability p = Accuracy.tier_of (days_from self (closest_time p)))
    by (unfold Accuracy.tier_of; now rewrite <- Hp).
  assert (Tq : reliability q = Accuracy.tier_of (days_from self (closest_time q)))
    by (unfold Accuracy.tier_of; now rewrite <- Hq).
  rewrite Ep, Eq, Tp, Tq. split.
  - apply (error_of_slope Hle).
  - now apply tier_rank_monotone.
Qed.

(** X7: the label of every pass of the list is decided by the time
    between the epoch and [closest_time] alone: EXCELLENT up to 3 days,
    VERY GOOD up to 7, GOOD up to 30, MODERATE up to 90, POOR up to 180
    and VERY POOR beyond, a closest approach before the epoch being
    EXCELLENT. *)
Theorem emitted_label_by_age
    (self : ISSPassPredictor) (years : Q) (w : World) :
  exists ps,
    calculate_passes self years w = Returned ps /\
    Forall (fun p =>
      let age := closest_time p - tle_epoch self in
      (reliability p = Accuracy.EXCELLENT <-> age <= timedelta_days 3) /\
      (reliability p = Accuracy.VERY_GOOD <->
         timedelta_days 3 < age /\ age <= timedelta_days 7) /\
      (reliability p = Accuracy.GOOD <->
         timedelta_days 7 < age /\ age <= timedelta_days 30) /\
      (reliability p = Accuracy.MODERATE <->
         timedelta_days 30 < age /\ age <= timedelta_days 90) /\
      (reliability p = Accuracy.POOR <->
         timedelta_days 90 < age /\ age <= timedelta_days 180) /\
      (reliability p = Accuracy.VERY_POOR <-> timedelta_days 180 < age)) ps.
Proof.
  eexists. split; [apply calculate_passes_eq |].
  apply Forall_passes. intros p Hp.
  destruct (passes_fields _ _ _ _ Hp) as (j & b & i & m & _ & _ & _ & _ & ->).
  cbn [reliability closest_time]. cbv zeta.
  set (t := fine_instant _ i).
  change (timedelta_days 3) with (3 * 86400000000).
  change (timedelta_days 7) with (7 * 86400000000).
  change (timedelta_days 30) with (30 * 86400000000).
  change (timedelta_days 90) with (90 * 86400000000).
  change (timedelta_days 180) with (180 * 86400000000).
  pose proof (days_from_le self t 3) as H3.
  pose proof (days_from_le self t 7) as H7.
  pose proof (days_from_le self t 30) as H30.
  pose proof (days_from_le self t 90) as H90.
  pose proof (days_from_le self t 180) as H180.
  unfold Accuracy.estimate_accuracy.
  change (inject_Z 3) with 3%Q in H3. change (inject_Z 7) with 7%Q in H7.
  change (inject_Z 30) with 30%Q in H30. change (inject_Z 90) with 90%Q in H90.
  change (inject_Z 180) with 180%Q in H180.
  repeat match goal with
  | |- context [Qle_bool (days_from self t) ?c] =>
      let E := fresh "G" in
      destruct (Qle_bool (days_from self t) c) eqn:E;
      [ apply Qle_bool_true_le in E
      | apply Qle_bool_false_lt, Qlt_not_le in E ];
      first [ rewrite H3 in E | rewrite H7 in E | rewrite H30 in E
            | rewrite H90 in E | rewrite H180 in E ]
  end; clear H3 H7 H30 H90 H180; cbn [snd];
  repeat match goal with |- _ /\ _ => split end;
  (split; [ intros Ht; try discriminate Ht; lia
          | intros Ha; try reflexivity; exfalso; lia ]).
Qed.

(** X8: the list has at most one pass for every two turns of the loop. *)
Theorem passes_at_most_half_the_turns
    (self : ISSPassPredictor) (years : Q) (w : World) :
  exists ps,
    calculate_passes self years w = Returned ps /\
    (2 * length ps
     <= turns (ts_now w) (ts_now w + timedelta_days (365 * years))%Z)%nat.
Proof.
  eexists. split; [apply calculate_passes_eq |].
  destruct (run_inv_holds self (ts_now w)
              (turns (ts_now w) (ts_now w + timedelta_days (365 * years))))
    as (_ & _ & _ & Hcount).
  destruct (in_window _); lia.
Qed.

(** X9: read at the same clock, a longer horizon returns the list of
    the shorter one followed by further passes. *)
Theorem longer_horizon_extends_passes
    (self : ISSPassPredictor) (years1 years2 : Q) (w : World) :
  (years1 <= years2)%Q ->
  exists ps more,
    calculate_passes self years1 w = Returned ps /\
    calculate_passes self years2 w = Returned (ps ++ more).
Proof.
  intros Hy. rewrite !calculate_passes_eq.
  set (n1 := turns _ (_ + timedelta_days (365 * years1))).
  set (n2 := turns _ (_ + timedelta_days (365 * years2))).
  assert (Hn : (n1 <= n2)%nat).
  { apply turns_monotone.
    pose proof (@timedelta_days_monotone (365 * years1) (365 * years2) ltac:(lra)).
    lia. }
  destruct (passes_prefix self (ts_now w) n1 (n2 - n1)) as (more & Hmore).
  replace (n1 + (n2 - n1))%nat with n2 in Hmore by lia.
  eexists. exists more. split; [reflexivity | now rewrite Hmore].
Qed.

(** A twentieth of a year against a tenth. *)
Lemma longer_horizon_extends_passes_witness :
  exists ps more,
    calculate_passes (predictor_of vee_range) (1 # 20) at_origin = Returned ps /\
    calculate_passes (predictor_of vee_range) (1 # 10) at_origin = Returned (ps ++ more).
Proof.
  apply (@longer_horizon_extends_passes (predictor_of vee_range) (1 # 20) (1 # 10)).
  discriminate.
Defined.

(** X10: with no years, or negative years, the loop takes no turn and the
    list is empty. *)
Theorem no_horizon_no_passes
    (self : ISSPassPredictor) (years : Q) (w : World) :
  (years <= 0)%Q ->
  calculate_passes self years w = Returned [].
Proof.
  intros Hy. rewrite calculate_passes_eq.
  assert (Htd : timedelta_days (365 * years) <= 0).
  { pose proof (@timedelta_days_monotone (365 * years) (inject_Z 0)) as H.
    unfold timedelta_days in H at 2.
    replace (round_half_even (inject_Z 0 * 86400 * 1000000)) with 0 in H
      by reflexivity.
    apply H. change (inject_Z 0) with 0%Q. lra. }
  replace (turns _ _) with 0%nat; [reflexivity |].
  symmetry. apply Nat.le_0_r, Nat.le_ngt. intros Hlt.
  apply (proj1 (turns_spec _ _ 0%nat)) in Hlt. unfold tick in Hlt. lia.
Qed.

(** Half a year back. *)
Lemma no_horizon_no_passes_witness :
  calculate_passes (predictor_of near_range) (- (1 # 2)) at_origin = Returned [].
Proof. apply no_horizon_no_passes. discriminate. Defined.

End SearchExtras.

(* ================================================================== *)
(** ** Properties of fetching the element set *)
(* ================================================================== *)

Module TleProps.

Import Clock Tle.

Section Fetch.

Variable isspace : N -> bool.
Variable epoch_of : str -> str -> Outcome datetime.


(** [lstrip isspace] removes a prefix of space characters. *)
Lemma lstrip_split (s : str) :
  exists ws, s = ws ++ lstrip isspace s /\ Forall (fun c => isspace c = true) ws.
Proof.
  induction s as [| c r (ws & Hr & Hws)]; [now exists [] |].
  cbn [Tle.lstrip]. destruct (isspace c) eqn:E.
  - exists (c :: ws). split; [cbn; now rewrite <- Hr | now constructor].
  - now exists [].
Qed.

Lemma lstrip_head (s : str) (c : N) :
  hd_error (lstrip isspace s) = Some c -> isspace c = false.
Proof.
  induction s as [| d r IH]; [discriminate |].
  cbn [Tle.lstrip]. destruct (isspace d) eqn:E; [exact IH |].
  cbn. now intros [= <-].
Qed.

Lemma lstrip_spaces (ws s : str) :
  Forall (fun c => isspace c = true) ws ->
  lstrip isspace (ws ++ s) = lstrip isspace s.
Proof.
  induction 1 as [| c ws Hc _ IH]; [reflexivity |].
  cbn. now rewrite Hc.
Qed.

Lemma lstrip_fixed (s : str) :
  (forall c, hd_error s = Some c -> isspace c = false) -> lstrip isspace s = s.
Proof.
  destruct s as [| c r]; [reflexivity |].
  intros H. cbn. now rewrite (H c eq_refl).
Qed.

(** [rstrip isspace] removes a suffix of space characters. *)
Lemma rstrip_split (s : str) :
  exists ws, s = rstrip isspace s ++ ws /\ Forall (fun c => isspace c = true) ws.
Proof.
  unfold Tle.rstrip. destruct (lstrip_split (rev s)) as (ws & Hs & Hws).
  exists (rev ws). split.
  - rewrite <- rev_app_distr, <- Hs. now rewrite rev_involutive.
  - now apply Forall_rev.
Qed.

Lemma rstrip_spaces (s ws : str) :
  Forall (fun c => isspace c = true) ws ->
  rstrip isspace (s ++ ws) = rstrip isspace s.
Proof.
  intros Hws. unfold Tle.rstrip. rewrite rev_app_distr.
  now rewrite lstrip_spaces by now apply Forall_rev.
Qed.

Lemma rstrip_fixed (s : str) :
  (forall c, hd_error (rev s) = Some c -> isspace c = false) -> rstrip isspace s = s.
Proof.
  intros H. unfold Tle.rstrip. rewrite lstrip_fixed by exact H.
  apply rev_involutive.
Qed.

Lemma strip_In (s : str) (c : N) : In c (strip isspace s) -> In c s.
Proof.
  intros Hc. unfold Tle.strip in Hc.
  destruct (rstrip_split (lstrip isspace s)) as (ws & Hs & _).
  destruct (lstrip_split s) as (ws' & Hs' & _).
  rewrite Hs'. apply in_or_app. right. rewrite Hs. apply in_or_app. now left.
Qed.

(** What [strip isspace] returns has no space character at either end. *)
Lemma strip_ends (s : str) :
  (forall c, hd_error (strip isspace s) = Some c -> isspace c = false) /\
  (forall c, hd_error (rev (strip isspace s)) = Some c -> isspace c = false).
Proof.
  split; intros c Hc.
  - unfold Tle.strip in Hc.
    destruct (rstrip_split (lstrip isspace s)) as (ws & Hs & _).
    apply (@lstrip_head s c). rewrite Hs.
    destruct (rstrip isspace (lstrip isspace s)); [discriminate | exact Hc].
  - unfold Tle.strip, Tle.rstrip in Hc. rewrite rev_involutive in Hc.
    now apply lstrip_head in Hc.
Qed.

(** [strip isspace] undoes the padding of a clean isspace line with space characters. *)
Lemma strip_padded (lead l pad : str) :
  Forall (fun c => isspace c = true) lead ->
  Forall (fun c => isspace c = true) pad ->
  clean isspace l ->
  strip isspace (lead ++ l ++ pad) = l.
Proof.
  intros Hlead Hpad (_ & Hhd & Hlast). unfold Tle.strip.
  rewrite lstrip_spaces by exact Hlead.
  destruct l as [| c r].
  - cbn [app]. destruct (lstrip_split pad) as (ws & Hs & _).
    assert (Hnil : lstrip isspace pad = []).
    { destruct (lstrip isspace pad) as [| d t] eqn:E; [reflexivity |].
      pose proof (@lstrip_head pad d) as Hd. rewrite E in Hd.
      specialize (Hd eq_refl).
      assert (Hin : In d pad) by (rewrite Hs; apply in_or_app; right; now left).
      rewrite Forall_forall in Hpad. rewrite (Hpad d Hin) in Hd. discriminate. }
    now rewrite Hnil.
  - rewrite lstrip_fixed.
    + rewrite rstrip_spaces by exact Hpad. now apply rstrip_fixed.
    + intros d Hd. apply Hhd. exact Hd.
Qed.

(** *** [split] *)

Lemma split_nonempty (s : str) : split s <> [].
Proof.
  induction s as [| c r IH]; cbn [split]; [discriminate |].
  destruct (N.eqb c newline); [discriminate |].
  destruct (split r); [contradiction | discriminate].
Qed.

Lemma split_no_newline (s : str) : ~ In newline s -> split s = [s].
Proof.
  induction s as [| c r IH]; intros Hs; [reflexivity |].
  cbn [split]. destruct (N.eqb_spec c newline) as [-> | Hne].
  - exfalso. apply Hs. now left.
  - rewrite IH; [reflexivity |]. intros Hin. apply Hs. now right.
Qed.

Lemma split_app (a b : str) :
  ~ In newline a -> split (a ++ newline :: b) = a :: split b.
Proof.
  induction a as [| c r IH]; intros Ha.
  - cbn [app split]. now rewrite N.eqb_refl.
  - cbn [app split]. destruct (N.eqb_spec c newline) as [-> | Hne].
    + exfalso. apply Ha. now left.
    + rewrite IH; [reflexivity |]. intros Hin. apply Ha. now right.
Qed.

Lemma split_pieces (s : str) : Forall (fun l => ~ In newline l) (split s).
Proof.
  induction s as [| c r IH]; cbn [split]; [constructor; [intros [] | constructor] |].
  destruct (N.eqb_spec c newline) as [-> | Hne].
  - constructor; [intros [] | exact IH].
  - destruct (split r) as [| piece pieces]; [constructor; [| constructor] |].
    + intros [H | []]. now apply Hne.
    + inversion IH as [| ? ? Hp Hps]; subst. constructor; [| exact Hps].
      intros [H | H]; [now apply Hne | now apply Hp].
Qed.

Lemma split_length (s : str) :
  length (split s) = S (count_occ N.eq_dec s newline).
Proof.
  induction s as [| c r IH]; [reflexivity |].
  cbn [split count_occ]. destruct (N.eqb_spec c newline) as [-> | Hne].
  - destruct (N.eq_dec newline newline); [| contradiction]. cbn [length]. now rewrite IH.
  - destruct (N.eq_dec c newline); [contradiction |].
    destruct (split r) as [| piece pieces] eqn:E;
      [now apply split_nonempty in E | exact IH].
Qed.

Lemma nth_split_clean (s : str) (i : nat) : clean isspace (strip isspace (nth i (split s) [])).
Proof.
  split; [| apply strip_ends].
  intros Hin. apply strip_In in Hin.
  destruct (Nat.lt_ge_cases i (length (split s))) as [Hi | Hi].
  - pose proof (split_pieces s) as Hall. rewrite Forall_forall in Hall.
    apply (Hall _ (nth_In (split s) [] Hi)). exact Hin.
  - rewrite nth_overflow in Hin by exact Hi. destruct Hin.
Qed.

(** X14: when [fetch_tle] returns [True] it has shown no error box, both
    stored lines are clean (no newline inside, no space character at
    either end), and the stored epoch is the one the satellite built
    from exactly those two lines gives. *)
Theorem fetch_tle_success_is_consistent
    (response : Outcome str) (self : Elements) :
  returned (fetch_tle isspace epoch_of response self) = true ->
  error_box (fetch_tle isspace epoch_of response self) = false /\
  exists line1 line2 epoch,
    elements (fetch_tle isspace epoch_of response self)
    = {| tle_line1 := Some line1; tle_line2 := Some line2;
         tle_epoch := Some epoch |} /\
    epoch_of line1 line2 = Returned epoch /\
    clean isspace line1 /\ clean isspace line2.
Proof.
  unfold fetch_tle. destruct response as [text | |]; [| discriminate ..].
  destruct (3 <=? _)%nat; [| discriminate].
  destruct (epoch_of _ _) as [epoch | |] eqn:E; [| discriminate ..].
  intros _. split; [reflexivity |].
  do 3 eexists. split; [reflexivity |]. split; [exact E |].
  split; apply nth_split_clean.
Qed.

(** X15: a reply of three lines, a title that does not start with a space
    character and two element lines, each line possibly padded with
    space characters other than the newline (a carriage return, say),
    and any space characters after the last line: [fetch_tle] stores the
    two element lines without their padding, and returns [True] with
    their epoch when the satellite can be built from them. *)
Theorem fetch_tle_three_line_reply
    (title lead1 line1 pad1 lead2 line2 pad2 : str) (self : Elements) :
  ~ In newline title ->
  (exists c rest, title = c :: rest /\ isspace c = false) ->
  blank isspace lead1 -> clean isspace line1 -> blank isspace pad1 ->
  blank isspace lead2 -> clean isspace line2 -> line2 <> [] ->
  Forall (fun c => isspace c = true) pad2 ->
  let text := title ++ newline :: (lead1 ++ line1 ++ pad1)
                    ++ newline :: (lead2 ++ line2 ++ pad2) in
  let done := fetch_tle isspace epoch_of (Returned text) self in
  tle_line1 (elements done) = Some line1 /\
  tle_line2 (elements done) = Some line2 /\
  forall epoch,
    epoch_of line1 line2 = Returned epoch ->
    returned done = true /\ tle_epoch (elements done) = Some epoch.
Proof.
  intros Htitle (c & rest & -> & Hc) (Hl1 & Hl1n) Hline1 (Hp1 & Hp1n)
    (Hl2 & Hl2n) Hline2 Hne Hp2 text done.
  pose proof Hline1 as (Hn1 & _). pose proof Hline2 as (Hn2 & _ & Hlast2).
  (* the whole text loses the padding after the last line only *)
  assert (Hstrip : strip isspace text
                   = (c :: rest) ++ newline :: (lead1 ++ line1 ++ pad1)
                       ++ newline :: (lead2 ++ line2)).
  { unfold Tle.strip, text. rewrite lstrip_fixed
      by (intros d [= <-]; exact Hc).
    replace ((c :: rest) ++ newline :: (lead1 ++ line1 ++ pad1)
               ++ newline :: lead2 ++ line2 ++ pad2)
      with (((c :: rest) ++ newline :: (lead1 ++ line1 ++ pad1)
               ++ newline :: lead2 ++ line2) ++ pad2)
      by (repeat (rewrite <- ?app_assoc; cbn [app]); reflexivity).
    rewrite rstrip_spaces by exact Hp2. apply rstrip_fixed.
    intros d Hd. apply Hlast2.
    destruct (exists_last Hne) as (front & z & ->).
    repeat (rewrite ?app_assoc, ?app_comm_cons in Hd).
    rewrite rev_app_distr in Hd. rewrite rev_app_distr. exact Hd. }
  assert (Hlines : split (strip isspace text)
                   = [c :: rest; lead1 ++ line1 ++ pad1; lead2 ++ line2]).
  { rewrite Hstrip, split_app by exact Htitle.
    rewrite split_app, split_no_newline; [reflexivity | |];
      intros Hin; repeat (apply in_app_or in Hin; destruct Hin as [Hin | Hin]);
      contradiction. }
  assert (E1 : strip isspace (lead1 ++ line1 ++ pad1) = line1)
    by now apply strip_padded.
  assert (E2 : strip isspace (lead2 ++ line2) = line2).
  { rewrite <- (app_nil_r line2) at 1. apply strip_padded; auto. }
  subst done. unfold fetch_tle. rewrite Hlines. cbn [length Nat.leb nth].
  rewrite E1, E2.
  destruct (epoch_of line1 line2) as [epoch | |]; cbn;
    (split; [reflexivity |]); (split; [reflexivity |]);
    intros e [=]; subst; auto.
Qed.

(** X16: a reply with fewer than two newlines once stripped, a bare
    two-line element set without its title line for one, makes
    [fetch_tle] return [False] without an error box and without
    assigning anything. *)
Theorem fetch_tle_needs_three_lines (text : str) (self : Elements) :
  (count_occ N.eq_dec (strip isspace text) newline < 2)%nat ->
  fetch_tle isspace epoch_of (Returned text) self
  = {| returned := false; error_box := false; elements := self |}.
Proof.
  intros Hcount. unfold fetch_tle. rewrite split_length.
  replace (3 <=? _)%nat with false; [reflexivity |].
  symmetry. apply Nat.leb_gt. lia.
Qed.

End Fetch.

Import Replies.

(** The sample reply is accepted. *)
Lemma fetch_tle_success_is_consistent_witness :
  returned (fetch_tle ascii_space any_epoch (Returned sample_reply) nothing_yet) = true /\
  error_box (fetch_tle ascii_space any_epoch (Returned sample_reply) nothing_yet) = false.
Proof.
  assert (H : returned (fetch_tle ascii_space any_epoch (Returned sample_reply)
                          nothing_yet) = true) by reflexivity.
  split; [exact H |].
  exact (proj1 (@fetch_tle_success_is_consistent ascii_space any_epoch
                  (Returned sample_reply) nothing_yet H)).
Defined.

(** The sample reply gives its two element lines without the carriage
    returns. *)
Lemma fetch_tle_three_line_reply_witness :
  tle_line1 (elements (fetch_tle ascii_space any_epoch (Returned sample_reply)
                         nothing_yet)) = Some sample_line1 /\
  tle_line2 (elements (fetch_tle ascii_space any_epoch (Returned sample_reply)
                         nothing_yet)) = Some sample_line2.
Proof.
  destruct (@fetch_tle_three_line_reply ascii_space any_epoch
              sample_title [] sample_line1 [13%N] [] sample_line2 [13; 10]%N
              nothing_yet) as (H1 & H2 & _).
  - cbn. intuition discriminate.
  - do 2 eexists. split; reflexivity.
  - split; [constructor | intros []].
  - split; [cbn; intuition discriminate |].
    split; intros c [= <-]; reflexivity.
  - split; [repeat constructor | cbn; intuition discriminate].
  - split; [constructor | intros []].
  - split; [cbn; intuition discriminate |].
    split; intros c [= <-]; reflexivity.
  - discriminate.
  - repeat constructor.
  - split; [exact H1 | exact H2].
Defined.

(** The two element lines without a title are refused. *)
Lemma fetch_tle_needs_three_lines_witness :
  fetch_tle ascii_space any_epoch (Returned bare_reply) nothing_yet
  = {| returned := false; error_box := false; elements := nothing_yet |}.
Proof.
  apply fetch_tle_needs_three_lines. vm_compute. lia.
Defined.

End TleProps.

(* ================================================================== *)
(** ** Properties of starting a prediction *)
(* ================================================================== *)

Module GuiProps.

Import Clock Predictor Scenarios Runs Gui QOrder ScanProps SearchProps RunProps.
Local Open Scope Z_scope.

(** X17: [start_prediction] starts the thread only for a NaN or for a
    finite number of years in (0, 10]; infinities, zero, negative
    numbers and entries that are not numbers get an error box.  For the
    finite ones the horizon is at most 3650 days, so the scan takes at
    most 5,256,000 turns and returns at most 2,628,000 passes. *)
Theorem start_prediction_bounds_the_scan (entry : option PyFloat) (years : PyFloat) :
  start_prediction entry = Thread years ->
  entry = Some years /\
  (years = NaN \/
   exists q, years = Finite q /\ (0 < q)%Q /\ (q <= 10)%Q /\
     forall (self : ISSPassPredictor) (w : World),
       timedelta_days (365 * q) <= timedelta_days 3650 /\
       Z.of_nat (turns (ts_now w) (ts_now w + timedelta_days (365 * q))) <= 5256000 /\
       exists ps,
         calculate_passes self q w = Returned ps /\
         Z.of_nat (length ps) <= 2628000).
Proof.
  unfold start_prediction. destruct entry as [y |]; [| discriminate].
  destruct (float_le y 0 || float_gt y 10) eqn:E; [discriminate |].
  intros [= ->]. split; [reflexivity |].
  apply orb_false_iff in E. destruct E as (Hle & Hgt).
  destruct years as [q | | |]; cbn in Hle, Hgt; try discriminate; [| now left].
  right. exists q.
  apply Qle_bool_false_lt in Hle. apply negb_false_iff, Qle_bool_iff in Hgt.
  split; [reflexivity |]. split; [exact Hle |]. split; [exact Hgt |].
  intros self w.
  assert (Htd : timedelta_days (365 * q) <= timedelta_days 3650)
    by (apply timedelta_days_monotone; lra).
  assert (Hturns : Z.of_nat (turns (ts_now w) (ts_now w + timedelta_days (365 * q)))
                   <= 5256000).
  { apply Z.le_ngt. intros Hlt.
    assert (Hk : (Z.to_nat 5256000
                  < turns (ts_now w) (ts_now w + timedelta_days (365 * q))%Z)%nat)
      by lia.
    apply (proj1 (turns_spec _ _ _)) in Hk.
    unfold tick in Hk. rewrite step_value, Z2Nat.id in Hk by lia.
    change (timedelta_days 3650) with 315360000000000 in Htd. lia. }
  split; [exact Htd |]. split; [exact Hturns |].
  eexists. split; [apply calculate_passes_eq |].
  destruct (run_inv_holds self (ts_now w)
              (turns (ts_now w) (ts_now w + timedelta_days (365 * q))))
    as (_ & _ & _ & Hcount).
  destruct (in_window _); lia.
Qed.

(** The entry the window starts with, a tenth of a year. *)
Lemma start_prediction_bounds_the_scan_witness :
  Some (Finite (1 # 10)) = Some (Finite (1 # 10)) /\
  (Finite (1 # 10) = NaN \/
   exists q, Finite (1 # 10) = Finite q /\ (0 < q)%Q /\ (q <= 10)%Q /\
     forall (self : ISSPassPredictor) (w : World),
       timedelta_days (365 * q) <= timedelta_days 3650 /\
       Z.of_nat (turns (ts_now w) (ts_now w + timedelta_days (365 * q))) <= 5256000 /\
       exists ps,
         calculate_passes self q w = Returned ps /\
         Z.of_nat (length ps) <= 2628000).
Proof.
  apply (@start_prediction_bounds_the_scan (Some (Finite (1 # 10)))).
  reflexivity.
Defined.

End GuiProps.
